(** * Multiple Indy ledger manager provider

    A shallow embedding of
    [aries_cloudagent/ledger/multiple_ledger/manager_provider.py]
    ([MultiIndyLedgerManagerProvider.provide]) and the properties of the
    registry it builds: partitioning, ordering, fallback injection, write
    designation, memoization and error behaviour.

    [provide] is written in a state and exception monad.  Python objects
    live in a heap and are named by references, so that "the same
    instance" means "the same reference"; the provider's [_inst]
    dictionary is part of the state; calls to the collaborators (settings,
    injector, root profile, class loader, logger) are recorded in a trace.

    What is outside the module is modelled by what [provide] observes of
    it: the pool, ledger and manager constructors record their arguments,
    the class loader is the set of class paths it can resolve, and the
    settings hold scalars ([None], booleans, integers, strings) or a list
    of dictionaries of scalars. *)

From Stdlib Require Import ZArith.
From stdpp Require Import gmap strings list fin_maps.

Local Open Scope string_scope.
Local Open Scope list_scope.

(** ** Python values and dictionaries *)

Module Py.

(** The scalar values a configuration entry holds once loaded:
    [None], booleans, integers and strings. *)
Inductive pyval : Type :=
| PNone
| PBool (b : bool)
| PInt (z : Z)
| PStr (s : string).

(** Python truthiness, as tested by [if v:]. *)
Definition truthy (v : pyval) : bool :=
  match v with
  | PNone => false
  | PBool b => b
  | PInt z => negb (z =? 0)%Z
  | PStr s => negb (String.eqb s "")
  end.

(** The integer a boolean or an integer compares (and hashes) as. *)
Definition as_int (v : pyval) : option Z :=
  match v with
  | PBool b => Some (if b then 1 else 0)%Z
  | PInt z => Some z
  | _ => None
  end.

(** Python [==] on these values, which is also the equality of dictionary
    keys: [True == 1] and [False == 0]. *)
Definition py_eqb (a b : pyval) : bool :=
  match a, b with
  | PNone, PNone => true
  | PStr s, PStr t => String.eqb s t
  | PStr _, _ | _, PStr _ => false
  | PNone, _ | _, PNone => false
  | _, _ =>
      match as_int a, as_int b with
      | Some x, Some y => (x =? y)%Z
      | _, _ => false
      end
  end.

(** [d.get(k)] on a dictionary with string keys: [None] when [k] is missing. *)
Definition get (d : gmap string pyval) (k : string) : pyval :=
  default PNone (d !! k).

(** An [OrderedDict]: the items in insertion order, no two keys equal
    under [py_eqb]. *)
Definition odict (V : Type) : Type := list (pyval * V).

Definition keys {V} (d : odict V) : list pyval := map fst d.

(** [k in d] *)
Definition contains {V} (k : pyval) (d : odict V) : bool :=
  existsb (fun kv => py_eqb (fst kv) k) d.

(** [d[k] = v]: an existing key keeps its place (and its key object) and
    takes the new value; a new key goes to the end. *)
Fixpoint setitem {V} (k : pyval) (v : V) (d : odict V) : odict V :=
  match d with
  | [] => [(k, v)]
  | (k', v') :: d' =>
      if py_eqb k' k then (k', v) :: d' else (k', v') :: setitem k v d'
  end.

(** [d[k]], [None] standing for the [KeyError]. *)
Fixpoint getitem {V} (k : pyval) (d : odict V) : option (pyval * V) :=
  match d with
  | [] => None
  | (k', v') :: d' => if py_eqb k' k then Some (k', v') else getitem k d'
  end.

(** The items of [d] other than the one stored under [k]. *)
Fixpoint without {V} (k : pyval) (d : odict V) : odict V :=
  match d with
  | [] => []
  | (k', v') :: d' =>
      if py_eqb k' k then without k d' else (k', v') :: without k d'
  end.

(** [d.move_to_end(k, last=False)]: the item of [k] becomes the first one;
    [None] stands for the [KeyError] raised when [k] is not in [d]. *)
Definition move_to_end_first {V} (k : pyval) (d : odict V) : option (odict V) :=
  match getitem k d with
  | None => None
  | Some kv => Some (kv :: without k d)
  end.

(** No two elements of the list are equal as dictionary keys. *)
Fixpoint distinct_keys (l : list pyval) : bool :=
  match l with
  | [] => true
  | k :: l' => negb (existsb (fun k' => py_eqb k' k) l') && distinct_keys l'
  end.

End Py.
Export Py.

(** ** Objects, exceptions and the world *)

(** A reference to an object: one that existed before the call (the shared
    cache, the ledger configured at startup) or one allocated in [heap]. *)
Inductive ref : Type :=
| Ext (n : nat)
| Loc (n : nat).

Inductive profile_kind : Type :=
| IndySdkProfile
| AskarProfile
| OtherProfile.

(** What [root_profile.inject_or(BaseLedger)] gives: the instance and the
    value of its [.pool.name]. *)
Record base_ledger : Type := BaseLedger {
  ledger_ref : ref;
  pool_name : pyval
}.

(** The root profile: its class, and the [BaseLedger] bound in its
    injector, if any. *)
Record Profile : Type := {
  kind : profile_kind;
  bound_ledger : option base_ledger
}.

Inductive pool_class : Type := IndySdkLedgerPool | IndyVdrLedgerPool.
Inductive ledger_class : Type := IndySdkLedger | IndyVdrLedger.

(** The arguments a ledger pool is constructed with. *)
Record pool_args : Type := {
  name : pyval;
  keepalive : pyval;
  cache : option ref;
  genesis_transactions : pyval;
  read_only : pyval;
  socks_proxy : pyval
}.

(** The arguments the manager is constructed with. *)
Record manager_args : Type := {
  profile : Profile;
  production_ledgers : odict ref;
  non_production_ledgers : odict ref;
  write_ledger_info : option (pyval * ref)
}.

(** The objects [provide] constructs; the constructors are external and
    are taken to record their arguments. *)
Inductive pyobj : Type :=
| ObjPool (cls : pool_class) (args : pool_args)
| ObjLedger (cls : ledger_class) (pool : ref) (prof : Profile)
| ObjManager (cls : string) (args : manager_args).

Inductive exn : Type :=
| MultipleLedgerManagerError (msg : string)
| InjectionError (msg : string) (cause : exn)
| ClassNotFoundError (path : string)
| KeyError (k : pyval)
| TypeError
| AttributeError.

(** The class of an exception, which is what [except] and the caller see. *)
Inductive exn_class : Type :=
| CMultipleLedgerManagerError
| CInjectionError
| CClassNotFoundError
| CKeyError
| CTypeError
| CAttributeError.

Definition class_of (e : exn) : exn_class :=
  match e with
  | MultipleLedgerManagerError _ => CMultipleLedgerManagerError
  | InjectionError _ _ => CInjectionError
  | ClassNotFoundError _ => CClassNotFoundError
  | KeyError _ => CKeyError
  | TypeError => CTypeError
  | AttributeError => CAttributeError
  end.

(** Calls to the collaborators. *)
Inductive event : Type :=
| LogInfo (manager_type : string)
| GetValue (key : string)
| InjectCache
| InjectLedger
| LoadClass (path : string).

(** A value stored in the settings: a scalar or a list of dictionaries. *)
Inductive setting : Type :=
| Scalar (v : pyval)
| ConfigList (l : list (gmap string pyval)).

(** The injector passed to [provide]: the [BaseCache] bound in it, if any. *)
Record Injector : Type := {
  bound_cache : option ref
}.

(** The mutable world: the heap of constructed objects, the provider's
    [_inst] dictionary, and the trace of collaborator calls. *)
Record state : Type := {
  heap : list pyobj;
  _inst : gmap string ref;
  trace : list event
}.

Definition deref (st : state) (r : ref) : option pyobj :=
  match r with
  | Loc n => heap st !! n
  | Ext _ => None
  end.

(** ** The state and exception monad *)

Inductive result (A : Type) : Type :=
| Ok (a : A)
| Raise (e : exn).
Arguments Ok {A} a.
Arguments Raise {A} e.

Definition M (A : Type) : Type := state → result A * state.

#[global] Instance M_ret : MRet M := λ A a st, (Ok a, st).

#[global] Instance M_bind : MBind M := λ A B f m st,
  match m st with
  | (Ok a, st') => f a st'
  | (Raise e, st') => (Raise e, st')
  end.

Definition raise {A} (e : exn) : M A := λ st, (Raise e, st).

(** [try: m except C as err: h err], with [h] partial: [None] when the
    clause does not match. *)
Definition try_except {A} (m : M A) (h : exn → option (M A)) : M A :=
  λ st,
    match m st with
    | (Ok a, st') => (Ok a, st')
    | (Raise e, st') =>
        match h e with
        | Some k => k st'
        | None => (Raise e, st')
        end
    end.

(** The three ways the world changes. *)
Definition log (e : event) (st : state) : state :=
  {| heap := heap st; _inst := _inst st; trace := trace st ++ [e] |}.

Definition alloc (o : pyobj) (st : state) : state :=
  {| heap := heap st ++ [o]; _inst := _inst st; trace := trace st |}.

Definition store (k : string) (v : ref) (st : state) : state :=
  {| heap := heap st; _inst := <[k := v]> (_inst st); trace := trace st |}.

Definition emit (e : event) : M unit := λ st, (Ok tt, log e st).

(** Construct an object: it gets the next free location. *)
Definition new (o : pyobj) : M ref :=
  λ st, (Ok (Loc (length (heap st))), alloc o st).

Definition inst_contains (k : string) : M bool :=
  λ st, (Ok (bool_decide (is_Some (_inst st !! k))), st).

Definition inst_set (k : string) (v : ref) : M unit :=
  λ st, (Ok tt, store k v st).

Definition inst_get (k : string) : M ref :=
  λ st,
    match _inst st !! k with
    | Some r => (Ok r, st)
    | None => (Raise (KeyError (PStr k)), st)
    end.

(** ** The collaborators *)

(** [settings.get_value(key)]: the stored value, [None] when there is none. *)
Definition get_value (settings : gmap string setting) (key : string)
  : M (option setting) :=
  emit (GetValue key);; mret (settings !! key).

(** Truthiness of what [get_value] returned. *)
Definition setting_truthy (v : option setting) : bool :=
  match v with
  | None => false
  | Some (Scalar v) => truthy v
  | Some (ConfigList l) => negb (bool_decide (l = []))
  end.

(** [for config in v]: the dictionaries the loop body runs on.  [None], a
    boolean and an integer are not iterable; a string iterates over its
    characters, and the first statement of the body, [config.get], fails
    on the first of them. *)
Definition for_configs (v : option setting) : M (list (gmap string pyval)) :=
  match v with
  | Some (ConfigList l) => mret l
  | Some (Scalar (PStr s)) =>
      if String.eqb s "" then mret [] else raise AttributeError
  | _ => raise TypeError
  end.

(** [injector.inject_or(BaseCache)] *)
Definition inject_or_BaseCache (injector : Injector) : M (option ref) :=
  emit InjectCache;; mret (bound_cache injector).

(** [self.root_profile.inject_or(BaseLedger)] *)
Definition inject_or_BaseLedger (root_profile : Profile) : M (option base_ledger) :=
  emit InjectLedger;; mret (bound_ledger root_profile).

(** Attribute access on what [inject_or] returned: [None] has no [pool]. *)
Definition the_ledger (o : option base_ledger) : M base_ledger :=
  match o with
  | Some l => mret l
  | None => raise AttributeError
  end.

(** ["startup::" + ledger_instance.pool.name]: only a string can be
    appended to a string. *)
Definition startup_id (ledger_instance : base_ledger) : M pyval :=
  match pool_name ledger_instance with
  | PStr s => mret (PStr ("startup::" +:+ s))
  | _ => raise TypeError
  end.

(** [ClassLoader.load_class(path)], over the set of importable classes. *)
Definition load_class (importable : gset string) (path : string) : M string :=
  emit (LoadClass path);;
  if decide (path ∈ importable) then mret path
  else raise (ClassNotFoundError path).

(** ** The provider *)

Inductive manager_type : Type := basic | askar_profile.

Definition manager_type_str (t : manager_type) : string :=
  match t with
  | basic => "basic"
  | askar_profile => "askar-profile"
  end.

Definition askar_manager_path : string :=
  "aries_cloudagent.ledger.multiple_ledger." +:+
  "indy_vdr_manager.MultiIndyVDRLedgerManager".

Definition basic_manager_path : string :=
  "aries_cloudagent.ledger.multiple_ledger." +:+ "indy_manager.MultiIndyLedgerManager".

Definition MANAGER_TYPES (t : manager_type) : string :=
  match t with
  | basic => basic_manager_path
  | askar_profile => askar_manager_path
  end.

(** The local variables of a construction: the two ordered partitions and
    [write_ledger_info]. *)
Record locals : Type := Locals {
  production : odict ref;
  non_production : odict ref;
  write_info : option (pyval * ref)
}.

(** A [for] loop threading the local variables. *)
Fixpoint for_each {A S} (l : list A) (body : S → A → M S) (s : S) : M S :=
  match l with
  | [] => mret s
  | x :: l' => s' ← body s x; for_each l' body s'
  end.

(** The body of [for config in ledger_config_list], the same text in both
    branches up to the pool and ledger classes. *)
Definition loop_body (pool_cls : pool_class) (ledger_cls : ledger_class)
    (root_profile : Profile) (injector : Injector)
    (vars : locals) (config : gmap string pyval) : M locals :=
  let keepalive := get config "keepalive" in
  let read_only := get config "read_only" in
  let socks_proxy := get config "socks_proxy" in
  let genesis_transactions := get config "genesis_transactions" in
  cache ← inject_or_BaseCache injector;
  let ledger_id := get config "id" in
  let pool_name := get config "pool_name" in
  let ledger_is_production := get config "is_production" in
  let ledger_is_write := get config "is_write" in
  ledger_pool ← new (ObjPool pool_cls
                       {| name := pool_name;
                          keepalive := keepalive;
                          cache := cache;
                          genesis_transactions := genesis_transactions;
                          read_only := read_only;
                          socks_proxy := socks_proxy |});
  ledger_instance ← new (ObjLedger ledger_cls ledger_pool root_profile);
  let write_ledger_info :=
    if truthy ledger_is_write then Some (ledger_id, ledger_instance)
    else write_info vars in
  if truthy ledger_is_production then
    mret (Locals (setitem ledger_id ledger_instance (production vars))
                 (non_production vars) write_ledger_info)
  else
    mret (Locals (production vars)
                 (setitem ledger_id ledger_instance (non_production vars))
                 write_ledger_info).

(** [d.move_to_end(k, last=False)] as a statement. *)
Definition move_to_front (k : pyval) (d : odict ref) : M (odict ref) :=
  match move_to_end_first k d with
  | Some d' => mret d'
  | None => raise (KeyError k)
  end.

(** The fallback step of the "basic" branch. *)
Definition basic_fallback (root_profile : Profile) (vars : locals) : M locals :=
  injected ← inject_or_BaseLedger root_profile;
  ledger_instance ← the_ledger injected;
  ledger_id ← startup_id ledger_instance;
  let indy_sdk_production_ledgers :=
    setitem ledger_id (ledger_ref ledger_instance) (production vars) in
  match write_info vars with
  | None =>
      let write_ledger_info := Some (ledger_id, ledger_ref ledger_instance) in
      indy_sdk_production_ledgers ←
        move_to_front ledger_id indy_sdk_production_ledgers;
      mret (Locals indy_sdk_production_ledgers (non_production vars)
                   write_ledger_info)
  | Some _ =>
      mret (Locals indy_sdk_production_ledgers (non_production vars)
                   (write_info vars))
  end.

(** The fallback step of the "askar-profile" branch: the instance goes into
    the production partition, and [move_to_end] is called on the
    non-production one. *)
Definition askar_fallback (root_profile : Profile) (vars : locals) : M locals :=
  injected ← inject_or_BaseLedger root_profile;
  ledger_instance ← the_ledger injected;
  ledger_id ← startup_id ledger_instance;
  let indy_vdr_production_ledgers :=
    setitem ledger_id (ledger_ref ledger_instance) (production vars) in
  match write_info vars with
  | None =>
      let write_ledger_info := Some (ledger_id, ledger_ref ledger_instance) in
      indy_vdr_non_production_ledgers ←
        move_to_front ledger_id (non_production vars);
      mret (Locals indy_vdr_production_ledgers indy_vdr_non_production_ledgers
                   write_ledger_info)
  | Some _ =>
      mret (Locals indy_vdr_production_ledgers (non_production vars)
                   (write_info vars))
  end.

(** [self._inst[manager_class] = ClassLoader.load_class(manager_class)(...)]:
    the class is resolved, the manager constructed, then stored. *)
Definition construct (importable : gset string) (manager_class : string)
    (root_profile : Profile) (vars : locals) : M unit :=
  cls ← load_class importable manager_class;
  manager ← new (ObjManager cls
                   {| profile := root_profile;
                      production_ledgers := production vars;
                      non_production_ledgers := non_production vars;
                      write_ledger_info := write_info vars |});
  inst_set manager_class manager.

(** The branch [manager_type == "basic"]. *)
Definition build_basic (importable : gset string) (manager_class : string)
    (root_profile : Profile) (settings : gmap string setting)
    (injector : Injector) : M unit :=
  let vars := Locals [] [] None in
  ledger_config_list ← get_value settings "ledger.ledger_config_list";
  configs ← for_configs ledger_config_list;
  vars ← for_each configs
           (loop_body IndySdkLedgerPool IndySdkLedger root_profile injector) vars;
  genesis ← get_value settings "ledger.genesis_transactions";
  vars ← (if setting_truthy genesis then basic_fallback root_profile vars
          else mret vars);
  construct importable manager_class root_profile vars.

(** The [else] branch ("askar-profile"). *)
Definition build_askar (importable : gset string) (manager_class : string)
    (root_profile : Profile) (settings : gmap string setting)
    (injector : Injector) : M unit :=
  let vars := Locals [] [] None in
  ledger_config_list ← get_value settings "ledger.ledger_config_list";
  configs ← for_configs ledger_config_list;
  vars ← for_each configs
           (loop_body IndyVdrLedgerPool IndyVdrLedger root_profile injector) vars;
  genesis ← get_value settings "ledger.genesis_transactions";
  vars ← (if setting_truthy genesis then askar_fallback root_profile vars
          else mret vars);
  construct importable manager_class root_profile vars.

Definition root_profile_error : string :=
  "MultiIndyLedgerManagerProvider expects an IndySDKProfile [indy] " +:+
  " or AskarProfile [indy_vdr] as root_profile".

(** The clause [except ClassNotFoundError as err: raise InjectionError(...)
    from err]; no other exception is handled. *)
Definition except_ClassNotFoundError (manager_type : manager_type) (err : exn)
  : option (M unit) :=
  match err with
  | ClassNotFoundError _ =>
      Some (raise (InjectionError
                     ("Unknown multiple Indy ledger manager type: " +:+
                      manager_type_str manager_type) err))
  | _ => None
  end.

(** [MultiIndyLedgerManagerProvider.provide]; [self] is the root profile
    together with the [_inst] dictionary of the state. *)
Definition provide (importable : gset string) (root_profile : Profile)
    (settings : gmap string setting) (injector : Injector) : M ref :=
  manager_type ←
    match kind root_profile with
    | IndySdkProfile => mret basic
    | AskarProfile => mret askar_profile
    | OtherProfile => raise (MultipleLedgerManagerError root_profile_error)
    end;
  let manager_class := MANAGER_TYPES manager_type in
  cached ← inst_contains manager_class;
  (if negb cached then
     emit (LogInfo (manager_type_str manager_type));;
     try_except
       (match manager_type with
        | basic =>
            build_basic importable manager_class root_profile settings injector
        | askar_profile =>
            build_askar importable manager_class root_profile settings injector
        end)
       (except_ClassNotFoundError manager_type)
   else mret tt);;
  inst_get manager_class.

(** ** The provider over its lifetime *)

(** [MultiIndyLedgerManagerProvider.__init__]: a provider starts with an
    empty [_inst]; its root profile is the argument [provide] is given. *)
Definition init (st : state) : state :=
  {| heap := heap st; _inst := ∅; trace := trace st |}.

(** What one call of [provide] is given besides the provider. *)
Record call : Type := Call {
  call_importable : gset string;
  call_settings : gmap string setting;
  call_injector : Injector
}.

(** Calls of [provide] on one provider, one after the other, with their
    results. *)
Fixpoint provide_each (root_profile : Profile) (calls : list call) (st : state)
  : list (result ref) * state :=
  match calls with
  | [] => ([], st)
  | c :: rest =>
      let out := provide (call_importable c) root_profile (call_settings c)
                   (call_injector c) st in
      let outs := provide_each root_profile rest out.2 in
      (out.1 :: outs.1, outs.2)
  end.

(** ** Concrete inputs *)

Module Scenario.

Definition all_importable : gset string :=
  {[ basic_manager_path; askar_manager_path ]}.

Definition fallback_main : base_ledger := BaseLedger (Ext 7) (PStr "main").

Definition sdk_root : Profile :=
  {| kind := IndySdkProfile; bound_ledger := Some fallback_main |}.
Definition askar_root : Profile :=
  {| kind := AskarProfile; bound_ledger := Some fallback_main |}.
Definition other_root : Profile :=
  {| kind := OtherProfile; bound_ledger := Some fallback_main |}.

Definition no_cache : Injector := {| bound_cache := None |}.

Definition empty_state : state := {| heap := []; _inst := ∅; trace := [] |}.

Definition entry (id : string) (is_production is_write : bool) : gmap string pyval :=
  <["id" := PStr id]> (<["is_production" := PBool is_production]>
    (<["is_write" := PBool is_write]> ∅)).

Definition L1 : gmap string pyval := entry "L1" true false.

Definition with_genesis (l : list (gmap string pyval)) : gmap string setting :=
  <["ledger.ledger_config_list" := ConfigList l]>
    (<["ledger.genesis_transactions" := Scalar (PStr "{}")]> ∅).

Definition without_genesis (l : list (gmap string pyval)) : gmap string setting :=
  <["ledger.ledger_config_list" := ConfigList l]> ∅.

(** An entry that takes the id of the ledger configured at startup, marked
    as the write ledger, followed by another production entry. *)
Definition clash : list (gmap string pyval) :=
  [entry "startup::main" true true; entry "L2" true false].


(** A class loader that finds no manager class. *)
Definition none_importable : gset string := ∅.

(** The state a first, successful call leaves behind. *)
Definition after_first_call : state :=
  (provide all_importable sdk_root (with_genesis [L1]) no_cache empty_state).2.

(** The state after a construction from a production entry and a
    non-production write entry, with the genesis flag set. *)
Definition after_two_entries : state :=
  (provide all_importable sdk_root (with_genesis [L1; entry "L2" false true])
     no_cache empty_state).2.

(** The state a call leaves behind when the manager class cannot be
    resolved. *)
Definition after_failed_call : state :=
  (provide none_importable sdk_root (without_genesis [L1]) no_cache
     empty_state).2.

(** A root profile of a recognised class with no ledger bound. *)
Definition bare_root : Profile :=
  {| kind := AskarProfile; bound_ledger := None |}.

(** Three calls: the class cannot be resolved, then it can, then the
    settings are empty. *)
Definition three_calls : list call :=
  [ Call none_importable (without_genesis [L1]) no_cache;
    Call all_importable (with_genesis [L1]) no_cache;
    Call none_importable ∅ no_cache ].

(** Two production entries with the same id around a non-production one. *)
Definition twice : list (gmap string pyval) :=
  [entry "L1" true false; entry "L2" false true; entry "L1" true false].

(** The state after a construction from [twice] with the genesis flag
    set. *)
Definition after_twice : state :=
  (provide all_importable sdk_root (with_genesis twice) no_cache empty_state).2.

End Scenario.


(** ** What the loop computes

    The loop never raises; these functions give, in closed form, the local
    variables and the objects it leaves behind when the heap held [n]
    objects before it: the entry at position [i] gets its pool at location
    [n + 2 * i] and its ledger instance at the next one. *)

Definition entry_vars (n : nat) (vars : locals) (config : gmap string pyval)
  : locals :=
  let ledger_id := get config "id" in
  let ledger_instance := Loc (S n) in
  let write_ledger_info :=
    if truthy (get config "is_write") then Some (ledger_id, ledger_instance)
    else write_info vars in
  if truthy (get config "is_production") then
    Locals (setitem ledger_id ledger_instance (production vars))
           (non_production vars) write_ledger_info
  else
    Locals (production vars)
           (setitem ledger_id ledger_instance (non_production vars))
           write_ledger_info.

Definition entry_objs (pool_cls : pool_class) (ledger_cls : ledger_class)
    (root_profile : Profile) (injector : Injector) (n : nat)
    (config : gmap string pyval) : list pyobj :=
  [ ObjPool pool_cls
      {| name := get config "pool_name";
         keepalive := get config "keepalive";
         cache := bound_cache injector;
         genesis_transactions := get config "genesis_transactions";
         read_only := get config "read_only";
         socks_proxy := get config "socks_proxy" |};
    ObjLedger ledger_cls (Loc n) root_profile ].

Fixpoint loop_vars (n : nat) (configs : list (gmap string pyval)) (vars : locals)
  : locals :=
  match configs with
  | [] => vars
  | config :: rest => loop_vars (S (S n)) rest (entry_vars n vars config)
  end.

Fixpoint loop_objs (pool_cls : pool_class) (ledger_cls : ledger_class)
    (root_profile : Profile) (injector : Injector) (n : nat)
    (configs : list (gmap string pyval)) : list pyobj :=
  match configs with
  | [] => []
  | config :: rest =>
      entry_objs pool_cls ledger_cls root_profile injector n config ++
      loop_objs pool_cls ledger_cls root_profile injector (S (S n)) rest
  end.

Definition after_loop (pool_cls : pool_class) (ledger_cls : ledger_class)
    (root_profile : Profile) (injector : Injector)
    (configs : list (gmap string pyval)) (st : state) : state :=
  {| heap := heap st ++
             loop_objs pool_cls ledger_cls root_profile injector
               (length (heap st)) configs;
     _inst := _inst st;
     trace := trace st ++ repeat InjectCache (length configs) |}.

Definition pool_class_of (t : manager_type) : pool_class :=
  match t with basic => IndySdkLedgerPool | askar_profile => IndyVdrLedgerPool end.

Definition ledger_class_of (t : manager_type) : ledger_class :=
  match t with basic => IndySdkLedger | askar_profile => IndyVdrLedger end.

(** The ids of the entries, as the loop reads them. *)
Definition ids (configs : list (gmap string pyval)) : list pyval :=
  (λ config, get config "id") <$> configs.

(** The root profile class that selects a manager type. *)
Definition kind_of (t : manager_type) : profile_kind :=
  match t with basic => IndySdkProfile | askar_profile => AskarProfile end.

Definition fallback (t : manager_type) : Profile → locals → M locals :=
  match t with basic => basic_fallback | askar_profile => askar_fallback end.

(** The part of either branch that comes before the manager is constructed:
    it leaves the local variables. *)
Definition collect (t : manager_type) (root_profile : Profile)
    (settings : gmap string setting) (injector : Injector) : M locals :=
  ledger_config_list ← get_value settings "ledger.ledger_config_list";
  configs ← for_configs ledger_config_list;
  vars ← for_each configs
           (loop_body (pool_class_of t) (ledger_class_of t) root_profile injector)
           (Locals [] [] None);
  genesis ← get_value settings "ledger.genesis_transactions";
  if setting_truthy genesis then fallback t root_profile vars else mret vars.

(** The manager constructed from the local variables. *)
Definition manager_of (t : manager_type) (root_profile : Profile) (vars : locals)
  : pyobj :=
  ObjManager (MANAGER_TYPES t)
    {| profile := root_profile;
       production_ledgers := production vars;
       non_production_ledgers := non_production vars;
       write_ledger_info := write_info vars |}.

(** The state once the manager is constructed and stored. *)
Definition constructed (t : manager_type) (root_profile : Profile)
    (vars : locals) (st : state) : state :=
  store (MANAGER_TYPES t) (Loc (length (heap st)))
    (alloc (manager_of t root_profile vars) (log (LoadClass (MANAGER_TYPES t)) st)).

(** The synthetic id of the ledger configured at startup. *)
Definition synthetic_id (s : string) : pyval := PStr ("startup::" +:+ s).

(** The built-in exceptions, which no clause of [provide] handles. *)
Definition builtin (e : exn) : bool :=
  match e with
  | KeyError _ | TypeError | AttributeError => true
  | _ => false
  end.

(** What holds of a step that comes before the construction: it leaves
    [_inst] as it was, and what it raises is a built-in exception. *)
Definition framed {A} (inst0 : gmap string ref) (out : result A * state) : Prop :=
  _inst out.2 = inst0 ∧ ∀ e, out.1 = Raise e → builtin e = true.

(** The ids of the entries that go to each partition, in list order. *)
Definition production_ids (configs : list (gmap string pyval)) : list pyval :=
  ids (filter (λ config, truthy (get config "is_production") = true) configs).

Definition non_production_ids (configs : list (gmap string pyval)) : list pyval :=
  ids (filter (λ config, truthy (get config "is_production") = false) configs).

(** The id the fallback step adds: none when the genesis flag is unset. *)
Definition injected_ids (root_profile : Profile) (settings : gmap string setting)
  : list pyval :=
  if setting_truthy (settings !! "ledger.genesis_transactions") then
    match bound_ledger root_profile with
    | Some l =>
        match pool_name l with
        | PStr s => [synthetic_id s]
        | _ => []
        end
    | None => []
    end
  else [].

Definition is_ok {A} (res : result A) : bool :=
  match res with Ok _ => true | Raise _ => false end.

Definition is_manager (o : pyobj) : bool :=
  match o with ObjManager _ _ => true | _ => false end.

(** The number of managers in a heap. *)
Definition managers (h : list pyobj) : nat := length (List.filter is_manager h).

(** Some entry is marked as the write ledger. *)
Definition marked (configs : list (gmap string pyval)) : bool :=
  existsb (λ config, truthy (get config "is_write")) configs.

(** Some entry of the non-production partition has the id [k]. *)
Definition non_production_has (k : pyval) (configs : list (gmap string pyval))
  : bool :=
  existsb (λ config, negb (truthy (get config "is_production")) &&
                     py_eqb (get config "id") k) configs.

(** The inputs on which a construction goes through: the manager class
    resolves, and when the genesis flag is set the root profile has a
    ledger with a string for pool name and, in the "askar-profile" branch
    with no entry marked, the call of [move_to_end] finds its key. *)
Definition constructible (importable : gset string) (t : manager_type)
    (root_profile : Profile) (settings : gmap string setting)
    (configs : list (gmap string pyval)) : bool :=
  bool_decide (MANAGER_TYPES t ∈ importable) &&
  (if setting_truthy (settings !! "ledger.genesis_transactions") then
     match bound_ledger root_profile with
     | Some l =>
         match pool_name l with
         | PStr s =>
             marked configs ||
             match t with
             | basic => true
             | askar_profile => non_production_has (synthetic_id s) configs
             end
         | _ => false
         end
     | None => false
     end
   else true).

(** The partition an entry goes to, by the truth value of its
    [is_production]. *)
Definition part (b : bool) (vars : locals) : odict ref :=
  if b then production vars else non_production vars.

Definition partition_of (b : bool) (args : manager_args) : odict ref :=
  if b then production_ledgers args else non_production_ledgers args.

(** The items the loop adds to a partition when the ids are distinct: the
    id of each entry of that partition with its ledger instance. *)
Fixpoint items (b : bool) (n : nat) (configs : list (gmap string pyval))
  : odict ref :=
  match configs with
  | [] => []
  | config :: rest =>
      (if Bool.eqb (truthy (get config "is_production")) b
       then [(get config "id", Loc (S n))] else []) ++
      items b (S (S n)) rest
  end.

(** The pool built for an entry. *)
Definition pool_of (t : manager_type) (injector : Injector)
    (config : gmap string pyval) : pyobj :=
  ObjPool (pool_class_of t)
    {| name := get config "pool_name";
       keepalive := get config "keepalive";
       cache := bound_cache injector;
       genesis_transactions := get config "genesis_transactions";
       read_only := get config "read_only";
       socks_proxy := get config "socks_proxy" |}.

(** What the fallback step leaves in the local variables, given the id
    and the instance of the startup ledger; [None] when [move_to_end]
    raises. *)
Definition after_fallback (t : manager_type) (ledger_id : pyval)
    (ledger_instance : ref) (vars : locals) : option locals :=
  match write_info vars with
  | Some w =>
      Some (Locals (setitem ledger_id ledger_instance (production vars))
                   (non_production vars) (Some w))
  | None =>
      match t with
      | basic =>
          moved ← move_to_end_first ledger_id
                    (setitem ledger_id ledger_instance (production vars));
          Some (Locals moved (non_production vars)
                       (Some (ledger_id, ledger_instance)))
      | askar_profile =>
          moved ← move_to_end_first ledger_id (non_production vars);
          Some (Locals (setitem ledger_id ledger_instance (production vars))
                       moved (Some (ledger_id, ledger_instance)))
      end
  end.

(** The result of the fallback step. *)
Definition fallback_result (t : manager_type) (root_profile : Profile)
    (vars : locals) : result locals :=
  match bound_ledger root_profile with
  | None => Raise AttributeError
  | Some l =>
      match pool_name l with
      | PStr s =>
          match after_fallback t (synthetic_id s) (ledger_ref l) vars with
          | Some vars' => Ok vars'
          | None => Raise (KeyError (synthetic_id s))
          end
      | _ => Raise TypeError
      end
  end.

(** The state in which a construction from the list [configs] resolves
    the manager class, and the local variables it has by then. *)
Definition collected_state (t : manager_type) (root_profile : Profile)
    (settings : gmap string setting) (injector : Injector)
    (configs : list (gmap string pyval)) (st : state) : state :=
  let st1 :=
    log (GetValue "ledger.genesis_transactions")
      (after_loop (pool_class_of t) (ledger_class_of t) root_profile injector
         configs
         (log (GetValue "ledger.ledger_config_list")
            (log (LogInfo (manager_type_str t)) st))) in
  if setting_truthy (settings !! "ledger.genesis_transactions")
  then log InjectLedger st1 else st1.

Definition collected_result (t : manager_type) (root_profile : Profile)
    (settings : gmap string setting) (configs : list (gmap string pyval))
    (n : nat) : result locals :=
  if setting_truthy (settings !! "ledger.genesis_transactions")
  then fallback_result t root_profile (loop_vars n configs (Locals [] [] None))
  else Ok (loop_vars n configs (Locals [] [] None)).

(** The item the fallback step adds: none when the genesis flag is unset. *)
Definition injected_items (root_profile : Profile)
    (settings : gmap string setting) : odict ref :=
  if setting_truthy (settings !! "ledger.genesis_transactions") then
    match bound_ledger root_profile with
    | Some l =>
        match pool_name l with
        | PStr s => [(synthetic_id s, ledger_ref l)]
        | _ => []
        end
    | None => []
    end
  else [].

(** The keys of [l] in order, each at its first occurrence, leaving out
    those that are equal to a key of [seen]. *)
Fixpoint firsts (seen l : list pyval) : list pyval :=
  match l with
  | [] => []
  | k :: l' =>
      if existsb (λ k', py_eqb k' k) seen then firsts seen l'
      else k :: firsts (k :: seen) l'
  end.

(** The order in which the ids reach each partition: those of its entries
    in list order, and the synthetic id where the branch puts it. *)
Definition production_order (t : manager_type) (root_profile : Profile)
    (settings : gmap string setting) (configs : list (gmap string pyval))
  : list pyval :=
  match t, marked configs with
  | basic, false => injected_ids root_profile settings ++ production_ids configs
  | _, _ => production_ids configs ++ injected_ids root_profile settings
  end.

Definition non_production_order (t : manager_type) (root_profile : Profile)
    (settings : gmap string setting) (configs : list (gmap string pyval))
  : list pyval :=
  match t, marked configs with
  | askar_profile, false =>
      injected_ids root_profile settings ++ non_production_ids configs
  | _, _ => non_production_ids configs
  end.

(** ** Running the monad *)

Section Run.
Context {A B : Type}.
Implicit Types (m : M A) (f : A → M B) (st : state).

Lemma run_ret (a : A) f st : (mret a ≫= f) st = f a st.
Proof. reflexivity. Qed.

Lemma run_raise (e : exn) f st : (raise e ≫= f) st = (Raise e, st).
Proof. reflexivity. Qed.

Lemma run_ok m f st a st1 : m st = (Ok a, st1) → (m ≫= f) st = f a st1.
Proof. unfold mbind, M_bind. by intros ->. Qed.

Lemma run_fail m f st e st1 :
  m st = (Raise e, st1) → (m ≫= f) st = (Raise e, st1).
Proof. unfold mbind, M_bind. by intros ->. Qed.
End Run.

Lemma for_each_loop_body pool_cls ledger_cls root_profile injector configs :
  ∀ vars st,
    for_each configs (loop_body pool_cls ledger_cls root_profile injector) vars st
    = (Ok (loop_vars (length (heap st)) configs vars),
       after_loop pool_cls ledger_cls root_profile injector configs st).
Proof.
  induction configs as [|config rest IH]; intros vars st.
  - destruct st. unfold after_loop. simpl. by rewrite !app_nil_r.
  - simpl for_each.
    assert (Hbody : loop_body pool_cls ledger_cls root_profile injector vars config st
      = (Ok (entry_vars (length (heap st)) vars config),
         alloc (ObjLedger ledger_cls (Loc (length (heap st))) root_profile)
           (alloc (ObjPool pool_cls
              {| name := get config "pool_name";
                 keepalive := get config "keepalive";
                 cache := bound_cache injector;
                 genesis_transactions := get config "genesis_transactions";
                 read_only := get config "read_only";
                 socks_proxy := get config "socks_proxy" |}) (log InjectCache st)))).
    { unfold loop_body, entry_vars, inject_or_BaseCache.
      unfold mbind, M_bind, mret, M_ret, emit, new. cbn [alloc log heap].
      rewrite length_app. cbn [length]. rewrite Nat.add_1_r.
      by destruct (truthy (get config "is_production")). }
    rewrite (run_ok _ _ _ _ _ Hbody), IH. clear Hbody IH.
    unfold after_loop, alloc, log.
    cbn [heap _inst trace length repeat loop_objs loop_vars entry_objs].
    rewrite !length_app. cbn [length].
    replace (length (heap st) + 1 + 1) with (S (S (length (heap st)))) by lia.
    rewrite <- !app_assoc. reflexivity.
Qed.

(** ** Dictionary keys *)

Lemma py_eqb_refl k : py_eqb k k = true.
Proof.
  destruct k as [|b|z|s]; simpl; auto using Z.eqb_refl, String.eqb_refl.
Qed.

Lemma py_eqb_sym a b : py_eqb a b = py_eqb b a.
Proof.
  destruct a, b; simpl; auto using Z.eqb_sym, String.eqb_sym.
Qed.

Lemma py_eqb_trans a b c :
  py_eqb a b = true → py_eqb b c = true → py_eqb a c = true.
Proof.
  destruct a, b, c; simpl; try discriminate; auto;
    rewrite ?Z.eqb_eq, ?String.eqb_eq; congruence.
Qed.

(** The keys equal to a string are that string. *)
Lemma py_eqb_str k s : py_eqb k (PStr s) = true → k = PStr s.
Proof.
  destruct k; simpl; try discriminate.
  intros H. apply String.eqb_eq in H. by subst.
Qed.

Lemma py_eqb_congr a b c :
  py_eqb a b = true → py_eqb a c = py_eqb b c.
Proof.
  intros Hab. destruct (py_eqb b c) eqn:Hbc.
  - eauto using py_eqb_trans.
  - destruct (py_eqb a c) eqn:Hac; [|done].
    rewrite py_eqb_sym in Hab.
    by rewrite (py_eqb_trans _ _ _ Hab Hac) in Hbc.
Qed.

Section Odict.
Context {V : Type}.
Implicit Types (d : odict V) (k : pyval) (v : V).

Lemma contains_keys k d :
  contains k d = existsb (λ k', py_eqb k' k) (keys d).
Proof.
  unfold contains, keys. induction d as [|[k' v'] d IH]; simpl; congruence.
Qed.

(** A new key is appended. *)
Lemma setitem_fresh k v d :
  contains k d = false → setitem k v d = d ++ [(k, v)].
Proof.
  induction d as [|[k' v'] d IH]; simpl; [done|].
  intros [Hk Hd]%orb_false_iff. rewrite Hk. by rewrite IH.
Qed.

(** Assignment never changes the keys already there, nor their order. *)
Lemma keys_setitem k v d :
  keys (setitem k v d) = if contains k d then keys d else keys d ++ [k].
Proof.
  induction d as [|[k' v'] d IH]; simpl; [done|].
  destruct (py_eqb k' k); simpl; [done|].
  rewrite IH. by destruct (contains k d).
Qed.

Lemma contains_setitem k k' v d :
  contains k' (setitem k v d) = contains k' d || py_eqb k k'.
Proof.
  induction d as [|[k0 v0] d IH]; simpl.
  - by rewrite orb_false_r.
  - destruct (py_eqb k0 k) eqn:E; simpl.
    + rewrite <- (py_eqb_congr _ _ _ E).
      by destruct (py_eqb k0 k'), (contains k' d).
    + rewrite IH. by rewrite orb_assoc.
Qed.

Lemma getitem_none k d : getitem k d = None ↔ contains k d = false.
Proof.
  induction d as [|[k' v'] d IH]; simpl; [done|].
  destruct (py_eqb k' k); simpl; [split; discriminate | apply IH].
Qed.

Lemma getitem_setitem_str s v d :
  getitem (PStr s) (setitem (PStr s) v d) = Some (PStr s, v).
Proof.
  induction d as [|[k' v'] d IH]; simpl.
  - by rewrite String.eqb_refl.
  - destruct (py_eqb k' (PStr s)) eqn:E; simpl; rewrite E; [|done].
    by rewrite (py_eqb_str _ _ E).
Qed.

Lemma without_setitem k v d :
  without k (setitem k v d) = without k d.
Proof.
  induction d as [|[k' v'] d IH]; simpl.
  - by rewrite py_eqb_refl.
  - destruct (py_eqb k' k) eqn:E; simpl; rewrite E; [done|]. by rewrite IH.
Qed.

Lemma without_fresh k d : contains k d = false → without k d = d.
Proof.
  induction d as [|[k' v'] d IH]; simpl; [done|].
  intros [Hk Hd]%orb_false_iff. rewrite Hk. by rewrite IH.
Qed.

Lemma move_to_end_first_none k d :
  move_to_end_first k d = None ↔ contains k d = false.
Proof.
  unfold move_to_end_first. rewrite <- getitem_none.
  destruct (getitem k d) as [kv|]; split; done.
Qed.
End Odict.

(** ** Running [provide] *)

Lemma deref_constructed t root_profile vars st :
  deref (constructed t root_profile vars st) (Loc (length (heap st)))
  = Some (manager_of t root_profile vars).
Proof. simpl. by apply list_lookup_middle. Qed.

Lemma inst_constructed t root_profile vars st :
  _inst (constructed t root_profile vars st)
  = <[MANAGER_TYPES t := Loc (length (heap st))]> (_inst st).
Proof. reflexivity. Qed.

Lemma construct_ok importable t root_profile vars st :
  MANAGER_TYPES t ∈ importable →
  construct importable (MANAGER_TYPES t) root_profile vars st
  = (Ok tt, constructed t root_profile vars st).
Proof.
  intros Hin. unfold construct, load_class, mbind, M_bind, emit, new, inst_set.
  by rewrite decide_True.
Qed.

Lemma construct_fail importable t root_profile vars st :
  MANAGER_TYPES t ∉ importable →
  construct importable (MANAGER_TYPES t) root_profile vars st
  = (Raise (ClassNotFoundError (MANAGER_TYPES t)),
     log (LoadClass (MANAGER_TYPES t)) st).
Proof.
  intros Hin. unfold construct, load_class, mbind, M_bind, emit, new, inst_set.
  by rewrite decide_False.
Qed.

(** Either branch is [collect] followed by [construct]. *)
Lemma build_collect importable t root_profile settings injector st :
  match t with
  | basic => build_basic importable (MANAGER_TYPES t) root_profile settings injector
  | askar_profile =>
      build_askar importable (MANAGER_TYPES t) root_profile settings injector
  end st
  = (collect t root_profile settings injector
       ≫= construct importable (MANAGER_TYPES t) root_profile) st.
Proof.
  destruct t; unfold build_basic, build_askar, collect, fallback,
    pool_class_of, ledger_class_of, mbind, M_bind;
    repeat case_match; simplify_eq; done.
Qed.

Lemma run_get_value {B} settings key (f : option setting → M B) st :
  (get_value settings key ≫= f) st = f (settings !! key) (log (GetValue key) st).
Proof. reflexivity. Qed.

(** [collect] on a list of dictionaries: the loop, then the fallback step
    when the genesis flag is set. *)
Lemma collect_run t root_profile settings injector configs st :
  settings !! "ledger.ledger_config_list" = Some (ConfigList configs) →
  collect t root_profile settings injector st
  = (if setting_truthy (settings !! "ledger.genesis_transactions")
     then fallback t root_profile
            (loop_vars (length (heap st)) configs (Locals [] [] None))
     else mret (loop_vars (length (heap st)) configs (Locals [] [] None)))
      (log (GetValue "ledger.genesis_transactions")
         (after_loop (pool_class_of t) (ledger_class_of t) root_profile injector
            configs (log (GetValue "ledger.ledger_config_list") st))).
Proof.
  intros Hlist. unfold collect.
  rewrite run_get_value, Hlist. unfold for_configs. rewrite run_ret.
  erewrite run_ok by apply for_each_loop_body.
  by rewrite run_get_value.
Qed.

Lemma run_inject_or_BaseLedger {B} root_profile (f : option base_ledger → M B) st :
  (inject_or_BaseLedger root_profile ≫= f) st
  = f (bound_ledger root_profile) (log InjectLedger st).
Proof. reflexivity. Qed.

(** The fallback steps, case by case. *)
Section Fallback.
Variables (root_profile : Profile) (l : base_ledger) (s : string).
Hypothesis Hbound : bound_ledger root_profile = Some l.
Hypothesis Hname : pool_name l = PStr s.

Lemma run_startup_id : startup_id l = mret (synthetic_id s).
Proof. unfold startup_id. by rewrite Hname. Qed.

Lemma fallback_designated t vars w st :
  write_info vars = Some w →
  fallback t root_profile vars st
  = (Ok (Locals (setitem (synthetic_id s) (ledger_ref l) (production vars))
                (non_production vars) (Some w)),
     log InjectLedger st).
Proof.
  intros Hw.
  destruct t; unfold fallback, basic_fallback, askar_fallback;
    rewrite run_inject_or_BaseLedger, Hbound; unfold the_ledger;
    rewrite run_ret, run_startup_id, run_ret, Hw; reflexivity.
Qed.

Lemma basic_fallback_undesignated vars st :
  write_info vars = None →
  basic_fallback root_profile vars st
  = (Ok (Locals ((synthetic_id s, ledger_ref l)
                   :: without (synthetic_id s) (production vars))
                (non_production vars)
                (Some (synthetic_id s, ledger_ref l))),
     log InjectLedger st).
Proof.
  intros Hw. unfold basic_fallback.
  rewrite run_inject_or_BaseLedger, Hbound. unfold the_ledger.
  rewrite run_ret, run_startup_id, run_ret, Hw.
  unfold move_to_front, move_to_end_first, synthetic_id.
  rewrite getitem_setitem_str, run_ret, without_setitem. reflexivity.
Qed.

Lemma askar_fallback_undesignated vars st :
  write_info vars = None →
  askar_fallback root_profile vars st
  = (match move_to_end_first (synthetic_id s) (non_production vars) with
     | Some moved =>
         Ok (Locals (setitem (synthetic_id s) (ledger_ref l) (production vars))
                    moved (Some (synthetic_id s, ledger_ref l)))
     | None => Raise (KeyError (synthetic_id s))
     end,
     log InjectLedger st).
Proof.
  intros Hw. unfold askar_fallback.
  rewrite run_inject_or_BaseLedger, Hbound. unfold the_ledger.
  rewrite run_ret, run_startup_id, run_ret, Hw.
  unfold move_to_front.
  destruct (move_to_end_first _ _); [by rewrite run_ret | by rewrite run_raise].
Qed.
End Fallback.

Lemma framed_ok {A} (a : A) inst0 st' :
  _inst st' = inst0 → framed inst0 (Ok a, st').
Proof. intros H. split; [done|]. by intros e [=]. Qed.

Lemma framed_raise {A} e inst0 st' :
  _inst st' = inst0 → builtin e = true → framed (A:=A) inst0 (Raise e, st').
Proof. intros H He. split; [done|]. by intros e' [= <-]. Qed.

Lemma fallback_frame t root_profile vars st :
  framed (_inst st) (fallback t root_profile vars st).
Proof.
  destruct t; unfold fallback, basic_fallback, askar_fallback;
    rewrite run_inject_or_BaseLedger; unfold the_ledger;
    (destruct (bound_ledger root_profile) as [l|];
       [rewrite run_ret|by apply framed_raise]);
    unfold startup_id;
    (destruct (pool_name l); try by apply framed_raise);
    rewrite run_ret; unfold move_to_front;
    (destruct (write_info vars); [by apply framed_ok|]);
    (destruct (move_to_end_first _ _);
       [rewrite run_ret; by apply framed_ok|by apply framed_raise]).
Qed.

Lemma collect_frame t root_profile settings injector st :
  framed (_inst st) (collect t root_profile settings injector st).
Proof.
  assert (Hgen : ∀ vars st1, _inst st1 = _inst st →
    framed (_inst st)
      ((if setting_truthy (settings !! "ledger.genesis_transactions")
        then fallback t root_profile vars else mret vars)
         (log (GetValue "ledger.genesis_transactions") st1))).
  { intros vars st1 Hst1. destruct (setting_truthy _).
    - rewrite <- Hst1.
      apply (fallback_frame t root_profile vars
               (log (GetValue "ledger.genesis_transactions") st1)).
    - by apply framed_ok. }
  destruct (settings !! "ledger.ledger_config_list") as [[v|configs]|] eqn:Hlist.
  - unfold collect. rewrite run_get_value, Hlist. unfold for_configs.
    destruct v as [| | |s]; try by apply framed_raise.
    destruct (String.eqb s ""); [|by apply framed_raise].
    rewrite run_ret. simpl for_each. rewrite run_ret, run_get_value.
    by apply Hgen.
  - rewrite (collect_run _ _ _ _ _ _ Hlist). by apply Hgen.
  - unfold collect. rewrite run_get_value, Hlist. unfold for_configs.
    by apply framed_raise.
Qed.

Lemma kind_cases root_profile :
  kind root_profile = OtherProfile ∨ ∃ t, kind root_profile = kind_of t.
Proof.
  destruct (kind root_profile); [right; by exists basic | right; by exists askar_profile | by left].
Qed.

Lemma select_manager_type {B} root_profile t (f : manager_type → M B) st :
  kind root_profile = kind_of t →
  (match kind root_profile with
   | IndySdkProfile => mret basic
   | AskarProfile => mret askar_profile
   | OtherProfile => raise (MultipleLedgerManagerError root_profile_error)
   end ≫= f) st = f t st.
Proof. intros ->. by destruct t. Qed.

Section Provide.
Variables (importable : gset string) (root_profile : Profile)
          (settings : gmap string setting) (injector : Injector).

(** An unrecognised root profile: the error, and nothing else happens. *)
Lemma provide_unrecognised st :
  kind root_profile = OtherProfile →
  provide importable root_profile settings injector st
  = (Raise (MultipleLedgerManagerError root_profile_error), st).
Proof. intros Hk. unfold provide. by rewrite Hk. Qed.

(** A manager already stored is returned, and nothing else happens. *)
Lemma provide_cached t r st :
  kind root_profile = kind_of t →
  _inst st !! MANAGER_TYPES t = Some r →
  provide importable root_profile settings injector st = (Ok r, st).
Proof.
  intros Hk Hr. unfold provide. rewrite (select_manager_type _ t) by done.
  unfold inst_contains, inst_get, mbind, M_bind, mret, M_ret.
  rewrite bool_decide_eq_true_2 by (rewrite Hr; eauto).
  simpl. by rewrite Hr.
Qed.

(** No manager stored yet: the outcome follows [collect], then the
    resolution of the class. *)
Lemma provide_miss t st :
  kind root_profile = kind_of t →
  _inst st !! MANAGER_TYPES t = None →
  provide importable root_profile settings injector st
  = match collect t root_profile settings injector
            (log (LogInfo (manager_type_str t)) st) with
    | (Ok vars, st2) =>
        if decide (MANAGER_TYPES t ∈ importable) then
          (Ok (Loc (length (heap st2))), constructed t root_profile vars st2)
        else
          (Raise (InjectionError
                    ("Unknown multiple Indy ledger manager type: " +:+
                     manager_type_str t)
                    (ClassNotFoundError (MANAGER_TYPES t))),
           log (LoadClass (MANAGER_TYPES t)) st2)
    | (Raise e, st2) => (Raise e, st2)
    end.
Proof.
  intros Hk Hr. unfold provide. rewrite (select_manager_type _ t) by done.
  unfold inst_contains at 1. unfold mbind at 1. unfold M_bind at 1.
  rewrite bool_decide_eq_false_2 by (rewrite Hr; by intros [? ?]).
  cbn [negb].
  unfold mbind at 1 2. unfold M_bind at 1 2. unfold emit at 1.
  unfold try_except. rewrite build_collect.
  destruct (collect t root_profile settings injector _) as [[vars|e] st2] eqn:Hc.
  - erewrite run_ok by exact Hc. destruct (decide _) as [Hin|Hin].
    + rewrite construct_ok by done. unfold inst_get.
      rewrite inst_constructed, lookup_insert_eq. reflexivity.
    + rewrite construct_fail by done. reflexivity.
  - erewrite run_fail by exact Hc.
    pose proof (collect_frame t root_profile settings injector
                  (log (LogInfo (manager_type_str t)) st)) as [_ Hb].
    rewrite Hc in Hb. specialize (Hb e eq_refl). by destruct e.
Qed.
End Provide.

(** * The properties *)

(** ** Memoization and failure *)

(** A successful call leaves its result stored under the manager class. *)
Lemma provide_ok_stored importable root_profile settings injector t st r st' :
  kind root_profile = kind_of t →
  provide importable root_profile settings injector st = (Ok r, st') →
  _inst st' !! MANAGER_TYPES t = Some r.
Proof.
  intros Hk. destruct (_inst st !! MANAGER_TYPES t) as [r0|] eqn:Hr.
  - rewrite (provide_cached _ _ _ _ t r0) by done. by intros [= <- <-].
  - rewrite (provide_miss _ _ _ _ t) by done.
    destruct (collect _ _ _ _ _) as [[vars|e] st2]; [|done].
    destruct (decide _); [|done]. intros [= <- <-].
    rewrite inst_constructed. apply lookup_insert_eq.
Qed.

(** C6: a root context that is neither of the two recognised kinds makes
    [provide] raise the error of line 52, [MultipleLedgerManagerError];
    the state is the one before the call: no setting was read and no
    collaborator called (same trace), no pool, ledger or manager was
    constructed (same heap), and [_inst] is unchanged. *)
Theorem unrecognised_root_raises_untouched
    importable root_profile settings injector st :
  kind root_profile = OtherProfile →
  provide importable root_profile settings injector st
  = (Raise (MultipleLedgerManagerError root_profile_error), st).
Proof. apply provide_unrecognised. Qed.

Lemma unrecognised_root_raises_untouched_witness :
  provide Scenario.all_importable Scenario.other_root
    (Scenario.with_genesis [Scenario.L1]) Scenario.no_cache Scenario.empty_state
  = (Raise (MultipleLedgerManagerError root_profile_error), Scenario.empty_state).
Proof. apply unrecognised_root_raises_untouched. reflexivity. Defined.

(** C3: when a call of [provide] has returned a manager, a second call on
    the same provider returns the same reference and leaves the state as it
    was: the trace shows no read of the settings, the heap no new object.
    The settings, the injector and the class loader of the second call are
    arbitrary. *)
Theorem provide_twice_same_instance
    importable root_profile settings injector
    importable' settings' injector' st r st1 :
  provide importable root_profile settings injector st = (Ok r, st1) →
  provide importable' root_profile settings' injector' st1 = (Ok r, st1).
Proof.
  intros Hfirst. destruct (kind_cases root_profile) as [Hk|[t Hk]].
  - by rewrite provide_unrecognised in Hfirst.
  - apply (provide_cached _ _ _ _ t); [done|].
    by apply (provide_ok_stored _ _ _ _ t) in Hfirst.
Qed.

Lemma provide_twice_same_instance_witness :
  provide Scenario.none_importable Scenario.sdk_root
    (Scenario.without_genesis []) Scenario.no_cache Scenario.after_first_call
  = (Ok (Loc 2), Scenario.after_first_call).
Proof.
  apply (provide_twice_same_instance Scenario.all_importable Scenario.sdk_root
           (Scenario.with_genesis [Scenario.L1]) Scenario.no_cache
           _ _ _ Scenario.empty_state).
  vm_compute. reflexivity.
Defined.

(** C7, as the code has it: no failure is recovered, and a failure of
    [provide] is one of three kinds.  An unrecognised root context raises
    [MultipleLedgerManagerError]; a manager class that cannot be resolved
    raises [InjectionError], a different class, with the
    [ClassNotFoundError] as its cause; any other exception is a built-in
    one raised while the entries are processed, which no clause catches
    and which reaches the caller as it is. *)
Theorem failures_by_class importable root_profile settings injector st e st' :
  provide importable root_profile settings injector st = (Raise e, st') →
  (kind root_profile = OtherProfile ∧
   e = MultipleLedgerManagerError root_profile_error) ∨
  (∃ t, kind root_profile = kind_of t ∧ (MANAGER_TYPES t ∉ importable) ∧
        e = InjectionError
              ("Unknown multiple Indy ledger manager type: " +:+ manager_type_str t)
              (ClassNotFoundError (MANAGER_TYPES t))) ∨
  (∃ t, kind root_profile = kind_of t ∧ builtin e = true ∧
        collect t root_profile settings injector
          (log (LogInfo (manager_type_str t)) st) = (Raise e, st')).
Proof.
  destruct (kind_cases root_profile) as [Hk|[t Hk]].
  - rewrite provide_unrecognised by done. intros [= <- <-]. by left.
  - intros Hp. right. revert Hp.
    destruct (_inst st !! MANAGER_TYPES t) as [r0|] eqn:Hr.
    + by rewrite (provide_cached _ _ _ _ t r0).
    + rewrite (provide_miss _ _ _ _ t) by done.
      pose proof (collect_frame t root_profile settings injector
                    (log (LogInfo (manager_type_str t)) st)) as [_ Hb].
      destruct (collect _ _ _ _ _) as [[vars|e0] st2] eqn:Hc.
      * destruct (decide _); [done|]. intros [= <- <-]. left.
        exists t. split; [done|]. split; done.
      * intros [= <- <-]. right.
        exists t. split; [done|]. split; [by apply Hb|done].
Qed.

Lemma failures_by_class_witness :
  (kind Scenario.sdk_root = OtherProfile ∧
   InjectionError "Unknown multiple Indy ledger manager type: basic"
     (ClassNotFoundError basic_manager_path)
   = MultipleLedgerManagerError root_profile_error) ∨
  (∃ t, kind Scenario.sdk_root = kind_of t ∧
        (MANAGER_TYPES t ∉ Scenario.none_importable) ∧
        InjectionError "Unknown multiple Indy ledger manager type: basic"
          (ClassNotFoundError basic_manager_path)
        = InjectionError
            ("Unknown multiple Indy ledger manager type: " +:+ manager_type_str t)
            (ClassNotFoundError (MANAGER_TYPES t))) ∨
  (∃ t, kind Scenario.sdk_root = kind_of t ∧
        builtin (InjectionError "Unknown multiple Indy ledger manager type: basic"
                   (ClassNotFoundError basic_manager_path)) = true ∧
        collect t Scenario.sdk_root (Scenario.without_genesis [Scenario.L1])
          Scenario.no_cache
          (log (LogInfo (manager_type_str t)) Scenario.empty_state)
        = (Raise (InjectionError "Unknown multiple Indy ledger manager type: basic"
                    (ClassNotFoundError basic_manager_path)),
           (provide Scenario.none_importable Scenario.sdk_root
              (Scenario.without_genesis [Scenario.L1]) Scenario.no_cache
              Scenario.empty_state).2)).
Proof.
  apply (failures_by_class Scenario.none_importable Scenario.sdk_root
           (Scenario.without_genesis [Scenario.L1]) Scenario.no_cache
           Scenario.empty_state).
  vm_compute. reflexivity.
Defined.

(** C7, as stated, fails: the unrecognised root context and the failed
    resolution are raised as two different exception classes, so there is
    no single class that every failure of [provide] has. *)
Lemma failures_not_one_class :
  ¬ ∃ c, ∀ importable root_profile settings injector st e st',
      provide importable root_profile settings injector st = (Raise e, st') →
      class_of e = c.
Proof.
  intros [c Hc].
  assert (H1 : CMultipleLedgerManagerError = c).
  { apply (Hc Scenario.all_importable Scenario.other_root
             (Scenario.without_genesis [Scenario.L1]) Scenario.no_cache
             Scenario.empty_state
             (MultipleLedgerManagerError root_profile_error)
             Scenario.empty_state).
    reflexivity. }
  assert (H2 : CInjectionError = c).
  { eapply (Hc Scenario.none_importable Scenario.sdk_root
              (Scenario.without_genesis [Scenario.L1]) Scenario.no_cache
              Scenario.empty_state
              (InjectionError "Unknown multiple Indy ledger manager type: basic"
                 (ClassNotFoundError basic_manager_path))).
    vm_compute. reflexivity. }
  congruence.
Qed.

(** ** The loop and the write designation *)

Lemma loop_vars_app n l1 l2 vars :
  loop_vars n (l1 ++ l2) vars
  = loop_vars (n + 2 * length l1) l2 (loop_vars n l1 vars).
Proof.
  revert n vars. induction l1 as [|c l1 IH]; intros n vars; simpl.
  - by rewrite Nat.add_0_r.
  - rewrite IH. f_equal. lia.
Qed.

Lemma loop_objs_length pc lc root_profile injector n configs :
  length (loop_objs pc lc root_profile injector n configs) = 2 * length configs.
Proof.
  revert n. induction configs as [|c l IH]; intros n; simpl; [done|].
  rewrite IH. lia.
Qed.

Lemma loop_objs_app pc lc root_profile injector n l1 l2 :
  loop_objs pc lc root_profile injector n (l1 ++ l2)
  = loop_objs pc lc root_profile injector n l1 ++
    loop_objs pc lc root_profile injector (n + 2 * length l1) l2.
Proof.
  revert n. induction l1 as [|c l1 IH]; intros n.
  - simpl. by rewrite Nat.add_0_r.
  - cbn [loop_objs app length]. rewrite IH, <- app_assoc.
    by replace (S (S n) + 2 * length l1) with (n + 2 * S (length l1)) by lia.
Qed.

(** Entries that are not marked leave the write designation alone. *)
Lemma loop_vars_no_write n configs vars :
  Forall (λ config, truthy (get config "is_write") = false) configs →
  write_info (loop_vars n configs vars) = write_info vars.
Proof.
  intros H. revert n vars. induction H as [|c l Hc _ IH]; intros n vars; simpl.
  - done.
  - rewrite IH. unfold entry_vars. rewrite Hc.
    by destruct (truthy (get c "is_production")).
Qed.

(** The last marked entry is the write designation. *)
Lemma loop_vars_last_write n pre config post vars :
  truthy (get config "is_write") = true →
  Forall (λ config, truthy (get config "is_write") = false) post →
  write_info (loop_vars n (pre ++ config :: post) vars)
  = Some (get config "id", Loc (S (n + 2 * length pre))).
Proof.
  intros Hw Hpost. rewrite loop_vars_app. simpl.
  rewrite loop_vars_no_write by done.
  unfold entry_vars. rewrite Hw.
  by destruct (truthy (get config "is_production")).
Qed.

(** A write designation, once set, stays set. *)
Lemma loop_vars_keeps_write n configs vars :
  is_Some (write_info vars) → is_Some (write_info (loop_vars n configs vars)).
Proof.
  revert n vars. induction configs as [|c l IH]; intros n vars Hw; [done|].
  simpl. apply IH. unfold entry_vars.
  destruct (truthy (get c "is_write")), (truthy (get c "is_production"));
    simpl; eauto.
Qed.

(** One marked entry is enough for a write designation to exist. *)
Lemma loop_vars_some_write n configs vars :
  Exists (λ config, truthy (get config "is_write") = true) configs →
  is_Some (write_info (loop_vars n configs vars)).
Proof.
  intros H. revert n vars.
  induction H as [c l Hc|c l _ IH]; intros n vars; simpl; [|apply IH].
  apply loop_vars_keeps_write. unfold entry_vars. rewrite Hc.
  destruct (truthy (get c "is_production")); simpl; eauto.
Qed.

(** ** The fallback step *)

(** C1: with the genesis flag set and no entry marked as the write ledger,
    the two branches move the synthetic id to the front of different
    partitions.  The "basic" branch returns a manager whose production
    partition starts with the fallback instance, the other items
    following in their order.  The "askar-profile" branch leaves the
    fallback instance where the assignment put it in the production
    partition and calls [move_to_end] on the non-production partition:
    when the synthetic id is not a key there the call raises [KeyError]
    and nothing is stored, and when it is one that item of the
    non-production partition moves to the front. *)
Theorem fallback_moves_in_different_partitions
    importable root_profile settings injector st t configs l s :
  kind root_profile = kind_of t →
  _inst st !! MANAGER_TYPES t = None →
  MANAGER_TYPES t ∈ importable →
  settings !! "ledger.ledger_config_list" = Some (ConfigList configs) →
  setting_truthy (settings !! "ledger.genesis_transactions") = true →
  Forall (λ config, truthy (get config "is_write") = false) configs →
  bound_ledger root_profile = Some l →
  pool_name l = PStr s →
  let vars := loop_vars (length (heap st)) configs (Locals [] [] None) in
  let ledger_id := synthetic_id s in
  match t with
  | basic =>
      ∃ r st',
        provide importable root_profile settings injector st = (Ok r, st') ∧
        deref st' r =
          Some (manager_of basic root_profile
                  (Locals ((ledger_id, ledger_ref l)
                             :: without ledger_id (production vars))
                          (non_production vars)
                          (Some (ledger_id, ledger_ref l))))
  | askar_profile =>
      match getitem ledger_id (non_production vars) with
      | None =>
          ∃ st',
            provide importable root_profile settings injector st
            = (Raise (KeyError ledger_id), st') ∧
            _inst st' = _inst st
      | Some item =>
          ∃ r st',
            provide importable root_profile settings injector st = (Ok r, st') ∧
            deref st' r =
              Some (manager_of askar_profile root_profile
                      (Locals (setitem ledger_id (ledger_ref l) (production vars))
                              (item :: without ledger_id (non_production vars))
                              (Some (ledger_id, ledger_ref l))))
      end
  end.
Proof.
  intros Hk Hmiss Hin Hlist Hgen Hnw Hl Hs vars ledger_id.
  assert (Hw : write_info vars = None).
  { unfold vars. by rewrite loop_vars_no_write. }
  pose proof (provide_miss importable root_profile settings injector t st Hk Hmiss)
    as Hrun.
  rewrite (collect_run _ _ _ _ _ _ Hlist), Hgen in Hrun.
  cbn [log heap] in Hrun. fold vars in Hrun.
  destruct t; unfold fallback in Hrun.
  - rewrite (basic_fallback_undesignated _ _ _ Hl Hs) in Hrun by done.
    rewrite decide_True in Hrun by done.
    eexists _, _. split; [exact Hrun|]. apply deref_constructed.
  - rewrite (askar_fallback_undesignated _ _ _ Hl Hs) in Hrun by done.
    unfold move_to_end_first in Hrun. fold ledger_id in Hrun.
    destruct (getitem ledger_id (non_production vars)) as [item|].
    + rewrite decide_True in Hrun by done.
      eexists _, _. split; [exact Hrun|]. apply deref_constructed.
    + eexists. split; [exact Hrun|]. reflexivity.
Qed.

Lemma fallback_moves_in_different_partitions_witness :
  (∃ r st',
     provide Scenario.all_importable Scenario.sdk_root
       (Scenario.with_genesis [Scenario.L1]) Scenario.no_cache Scenario.empty_state
     = (Ok r, st') ∧
     deref st' r =
       Some (manager_of basic Scenario.sdk_root
               (Locals [(PStr "startup::main", Ext 7); (PStr "L1", Loc 1)] []
                       (Some (PStr "startup::main", Ext 7))))) ∧
  (∃ st',
     provide Scenario.all_importable Scenario.askar_root
       (Scenario.with_genesis [Scenario.L1]) Scenario.no_cache Scenario.empty_state
     = (Raise (KeyError (PStr "startup::main")), st') ∧
     _inst st' = ∅).
Proof.
  split.
  - apply (fallback_moves_in_different_partitions
             Scenario.all_importable Scenario.sdk_root
             (Scenario.with_genesis [Scenario.L1]) Scenario.no_cache
             Scenario.empty_state basic [Scenario.L1] Scenario.fallback_main "main");
      try reflexivity.
    repeat constructor.
  - apply (fallback_moves_in_different_partitions
             Scenario.all_importable Scenario.askar_root
             (Scenario.with_genesis [Scenario.L1]) Scenario.no_cache
             Scenario.empty_state askar_profile [Scenario.L1]
             Scenario.fallback_main "main");
      try reflexivity.
    repeat constructor.
Defined.

(** C2, at its scenario: for the list [[{id: "L1", is_production: true,
    is_write: false}]], the genesis flag set and a startup ledger whose
    pool is named "main", the "basic" branch returns a manager whose
    production partition is "startup::main" then "L1" and whose write
    designation is the startup ledger, while the "askar-profile" branch
    raises [KeyError] and stores no manager. *)
Theorem scenario_fallback_first_only_in_basic :
  (∃ st',
     provide Scenario.all_importable Scenario.sdk_root
       (Scenario.with_genesis [Scenario.L1]) Scenario.no_cache Scenario.empty_state
     = (Ok (Loc 2), st') ∧
     deref st' (Loc 2) =
       Some (ObjManager basic_manager_path
               {| profile := Scenario.sdk_root;
                  production_ledgers :=
                    [(PStr "startup::main", ledger_ref Scenario.fallback_main);
                     (PStr "L1", Loc 1)];
                  non_production_ledgers := [];
                  write_ledger_info :=
                    Some (PStr "startup::main",
                          ledger_ref Scenario.fallback_main) |})) ∧
  (∃ st',
     provide Scenario.all_importable Scenario.askar_root
       (Scenario.with_genesis [Scenario.L1]) Scenario.no_cache Scenario.empty_state
     = (Raise (KeyError (PStr "startup::main")), st') ∧
     _inst st' = ∅).
Proof.
  split; eexists; (split; [vm_compute; reflexivity|]); vm_compute; reflexivity.
Qed.

(** C10, as the code has it: in both branches, with the genesis flag set
    and an entry marked as the write ledger, the fallback step only assigns
    the startup ledger to the synthetic id in the production partition.
    That id goes to the end when it is not yet a key of the partition;
    when it is one, the keys and their order stay as they are.  The
    non-production partition and the write designation are those the loop
    left, and nothing is moved to the front. *)
Theorem designated_fallback_only_assigns
    importable root_profile settings injector st t configs l s :
  kind root_profile = kind_of t →
  _inst st !! MANAGER_TYPES t = None →
  MANAGER_TYPES t ∈ importable →
  settings !! "ledger.ledger_config_list" = Some (ConfigList configs) →
  setting_truthy (settings !! "ledger.genesis_transactions") = true →
  Exists (λ config, truthy (get config "is_write") = true) configs →
  bound_ledger root_profile = Some l →
  pool_name l = PStr s →
  let vars := loop_vars (length (heap st)) configs (Locals [] [] None) in
  let ledger_id := synthetic_id s in
  ∃ r st' args,
    provide importable root_profile settings injector st = (Ok r, st') ∧
    deref st' r = Some (ObjManager (MANAGER_TYPES t) args) ∧
    profile args = root_profile ∧
    non_production_ledgers args = non_production vars ∧
    is_Some (write_info vars) ∧
    write_ledger_info args = write_info vars ∧
    production_ledgers args = setitem ledger_id (ledger_ref l) (production vars) ∧
    if contains ledger_id (production vars)
    then keys (production_ledgers args) = keys (production vars)
    else production_ledgers args = production vars ++ [(ledger_id, ledger_ref l)].
Proof.
  intros Hk Hmiss Hin Hlist Hgen Hex Hl Hs vars ledger_id.
  destruct (loop_vars_some_write (length (heap st)) configs (Locals [] [] None) Hex)
    as [w Hw]. fold vars in Hw.
  pose proof (provide_miss importable root_profile settings injector t st Hk Hmiss)
    as Hrun.
  rewrite (collect_run _ _ _ _ _ _ Hlist), Hgen in Hrun.
  cbn [log heap] in Hrun. fold vars in Hrun.
  rewrite (fallback_designated _ _ _ Hl Hs _ _ w) in Hrun by done.
  rewrite decide_True in Hrun by done.
  eexists _, _, _. split; [exact Hrun|].
  split; [apply deref_constructed|]. cbn [profile non_production_ledgers
    write_ledger_info production_ledgers production non_production write_info].
  rewrite Hw. do 5 (split; [by eauto|]).
  unfold ledger_id.
  destruct (contains (synthetic_id s) (production vars)) eqn:Hc.
  - by rewrite keys_setitem, Hc.
  - by apply setitem_fresh.
Qed.

Lemma designated_fallback_only_assigns_witness :
  ∃ r st' args,
    provide Scenario.all_importable Scenario.askar_root
      (Scenario.with_genesis [Scenario.entry "L1" true true;
                              Scenario.entry "L2" false false])
      Scenario.no_cache Scenario.empty_state = (Ok r, st') ∧
    deref st' r = Some (ObjManager askar_manager_path args) ∧
    profile args = Scenario.askar_root ∧
    non_production_ledgers args = [(PStr "L2", Loc 3)] ∧
    is_Some (Some (PStr "L1", Loc 1)) ∧
    write_ledger_info args = Some (PStr "L1", Loc 1) ∧
    production_ledgers args
    = setitem (PStr "startup::main") (Ext 7) [(PStr "L1", Loc 1)] ∧
    production_ledgers args = [(PStr "L1", Loc 1); (PStr "startup::main", Ext 7)].
Proof.
  apply (designated_fallback_only_assigns
           Scenario.all_importable Scenario.askar_root
           (Scenario.with_genesis [Scenario.entry "L1" true true;
                                   Scenario.entry "L2" false false])
           Scenario.no_cache Scenario.empty_state askar_profile
           [Scenario.entry "L1" true true; Scenario.entry "L2" false false]
           Scenario.fallback_main "main");
    try reflexivity.
  repeat constructor.
Defined.

(** C10, as stated, fails: when an entry of the production partition has
    the synthetic id, the fallback step does not append that id at the end;
    the id keeps its place, the first here, and takes the startup ledger. *)
Lemma fallback_overwrites_in_place :
  ∃ st' args,
    provide Scenario.all_importable Scenario.sdk_root
      (Scenario.with_genesis Scenario.clash) Scenario.no_cache Scenario.empty_state
    = (Ok (Loc 4), st') ∧
    deref st' (Loc 4) = Some (ObjManager basic_manager_path args) ∧
    write_ledger_info args = Some (PStr "startup::main", Loc 1) ∧
    production (loop_vars 0 Scenario.clash (Locals [] [] None))
    = [(PStr "startup::main", Loc 1); (PStr "L2", Loc 3)] ∧
    production_ledgers args = [(PStr "startup::main", Ext 7); (PStr "L2", Loc 3)] ∧
    production_ledgers args
    ≠ production (loop_vars 0 Scenario.clash (Locals [] [] None))
      ++ [(synthetic_id "main", Ext 7)].
Proof.
  eexists _, _. split; [vm_compute; reflexivity|].
  split; [vm_compute; reflexivity|].
  vm_compute. repeat split; discriminate.
Qed.

(** ** Entries with missing fields *)

(** Without the fallback step, a list of dictionaries always yields a
    manager, whatever the dictionaries hold. *)
Lemma provide_without_genesis
    importable root_profile settings injector st t configs :
  kind root_profile = kind_of t →
  _inst st !! MANAGER_TYPES t = None →
  MANAGER_TYPES t ∈ importable →
  settings !! "ledger.ledger_config_list" = Some (ConfigList configs) →
  setting_truthy (settings !! "ledger.genesis_transactions") = false →
  ∃ r st',
    provide importable root_profile settings injector st = (Ok r, st') ∧
    deref st' r =
      Some (manager_of t root_profile
              (loop_vars (length (heap st)) configs (Locals [] [] None))) ∧
    heap st' =
      heap st ++
      loop_objs (pool_class_of t) (ledger_class_of t) root_profile injector
        (length (heap st)) configs ++
      [manager_of t root_profile
         (loop_vars (length (heap st)) configs (Locals [] [] None))].
Proof.
  intros Hk Hmiss Hin Hlist Hgen.
  pose proof (provide_miss importable root_profile settings injector t st Hk Hmiss)
    as Hrun.
  rewrite (collect_run _ _ _ _ _ _ Hlist), Hgen in Hrun.
  cbn [log heap] in Hrun. unfold mret, M_ret in Hrun.
  rewrite decide_True in Hrun by done.
  eexists _, _. split; [exact Hrun|]. split; [apply deref_constructed|].
  simpl. by rewrite <- app_assoc.
Qed.


(** ** The write designation *)

Lemma lookup_two {A} (l1 l2 : list A) x y n :
  n = length l1 →
  (l1 ++ x :: y :: l2) !! n = Some x ∧ (l1 ++ x :: y :: l2) !! S n = Some y.
Proof.
  intros ->. split; [by apply list_lookup_middle|].
  replace (l1 ++ x :: y :: l2) with ((l1 ++ [x]) ++ y :: l2)
    by (by rewrite <- app_assoc).
  apply list_lookup_middle. rewrite length_app. simpl. lia.
Qed.

(** Where the loop leaves the pool and the ledger of an entry. *)
Lemma entry_in_heap pc lc root_profile injector (heap0 rest : list pyobj)
    pre config post :
  let n := length heap0 + 2 * length pre in
  let heap1 :=
    heap0 ++
    loop_objs pc lc root_profile injector (length heap0) (pre ++ config :: post) ++
    rest in
  heap1 !! n
  = Some (ObjPool pc
            {| name := get config "pool_name";
               keepalive := get config "keepalive";
               cache := bound_cache injector;
               genesis_transactions := get config "genesis_transactions";
               read_only := get config "read_only";
               socks_proxy := get config "socks_proxy" |}) ∧
  heap1 !! S n = Some (ObjLedger lc (Loc n) root_profile).
Proof.
  intros n heap1. unfold heap1. rewrite loop_objs_app.
  cbn [loop_objs entry_objs app]. rewrite <- !app_assoc, app_assoc.
  cbn [app]. apply lookup_two.
  rewrite length_app, loop_objs_length. reflexivity.
Qed.

(** Every list with a marked entry has a last one. *)
Lemma last_marked_split (configs : list (gmap string pyval)) :
  Exists (λ config, truthy (get config "is_write") = true) configs →
  ∃ pre config post,
    configs = pre ++ config :: post ∧
    truthy (get config "is_write") = true ∧
    Forall (λ later, truthy (get later "is_write") = false) post.
Proof.
  induction configs as [|c l IH]; intros H; [by inversion H|].
  destruct (decide (Exists (λ config, truthy (get config "is_write") = true) l))
    as [Hl|Hl].
  - destruct (IH Hl) as (pre & config & post & -> & Hw & Hpost).
    by exists (c :: pre), config, post.
  - apply Exists_cons in H as [Hc|Hl']; [|done].
    exists [], c, l. split; [done|]. split; [done|].
    apply Forall_forall. intros x Hx. apply not_true_is_false.
    intros Hx'. apply Hl, Exists_exists. eauto.
Qed.

(** C5: the write designation is an optional pair, so there is at most
    one.  When entries are marked [is_write], the construction succeeds
    (several marked entries raise nothing) and the designation is the id of
    the last marked entry together with the ledger instance built for that
    entry; this holds with the genesis flag set as well, so the fallback
    step does not replace it. *)
Theorem last_marked_entry_is_write_designation
    importable root_profile settings injector st t pre config post :
  kind root_profile = kind_of t →
  _inst st !! MANAGER_TYPES t = None →
  MANAGER_TYPES t ∈ importable →
  settings !! "ledger.ledger_config_list"
  = Some (ConfigList (pre ++ config :: post)) →
  truthy (get config "is_write") = true →
  Forall (λ later, truthy (get later "is_write") = false) post →
  (setting_truthy (settings !! "ledger.genesis_transactions") = true →
   ∃ l s, bound_ledger root_profile = Some l ∧ pool_name l = PStr s) →
  let n := length (heap st) + 2 * length pre in
  ∃ r st' args,
    provide importable root_profile settings injector st = (Ok r, st') ∧
    deref st' r = Some (ObjManager (MANAGER_TYPES t) args) ∧
    write_ledger_info args = Some (get config "id", Loc (S n)) ∧
    deref st' (Loc (S n))
    = Some (ObjLedger (ledger_class_of t) (Loc n) root_profile) ∧
    deref st' (Loc n)
    = Some (ObjPool (pool_class_of t)
              {| name := get config "pool_name";
                 keepalive := get config "keepalive";
                 cache := bound_cache injector;
                 genesis_transactions := get config "genesis_transactions";
                 read_only := get config "read_only";
                 socks_proxy := get config "socks_proxy" |}).
Proof.
  intros Hk Hmiss Hin Hlist Hw Hpost Hfb n.
  pose proof (loop_vars_last_write (length (heap st)) pre config post
                (Locals [] [] None) Hw Hpost) as Hlast.
  pose proof (provide_miss importable root_profile settings injector t st Hk Hmiss)
    as Hrun.
  rewrite (collect_run _ _ _ _ _ _ Hlist) in Hrun. cbn [log heap] in Hrun.
  destruct (entry_in_heap (pool_class_of t) (ledger_class_of t) root_profile
              injector (heap st) [manager_of t root_profile
                (loop_vars (length (heap st)) (pre ++ config :: post)
                   (Locals [] [] None))] pre config post) as [Hpool Hledger].
  destruct (setting_truthy _).
  - destruct Hfb as (l & s & Hl & Hs); [done|].
    rewrite (fallback_designated _ _ _ Hl Hs _ _ _ _ Hlast) in Hrun.
    rewrite decide_True in Hrun by done.
    destruct (entry_in_heap (pool_class_of t) (ledger_class_of t) root_profile
                injector (heap st)
                [manager_of t root_profile
                   (Locals (setitem (synthetic_id s) (ledger_ref l)
                              (production (loop_vars (length (heap st))
                                 (pre ++ config :: post) (Locals [] [] None))))
                           (non_production (loop_vars (length (heap st))
                              (pre ++ config :: post) (Locals [] [] None)))
                           (Some (get config "id", Loc (S n))))]
                pre config post) as [Hpool' Hledger'].
    eexists _, _, _. split; [exact Hrun|].
    split; [apply deref_constructed|]. split; [reflexivity|].
    cbn [deref constructed store alloc log heap after_loop].
    rewrite <- app_assoc. split; assumption.
  - unfold mret, M_ret in Hrun. rewrite decide_True in Hrun by done.
    eexists _, _, _. split; [exact Hrun|].
    split; [apply deref_constructed|]. split; [exact Hlast|].
    cbn [deref constructed store alloc log heap after_loop].
    rewrite <- app_assoc. split; assumption.
Qed.

Lemma last_marked_entry_is_write_designation_witness :
  ∃ r st' args,
    provide Scenario.all_importable Scenario.askar_root
      (Scenario.with_genesis
         [Scenario.entry "A" true true; Scenario.entry "B" false true;
          Scenario.entry "C" true false])
      Scenario.no_cache Scenario.empty_state = (Ok r, st') ∧
    deref st' r = Some (ObjManager askar_manager_path args) ∧
    write_ledger_info args = Some (PStr "B", Loc 3) ∧
    deref st' (Loc 3) = Some (ObjLedger IndyVdrLedger (Loc 2) Scenario.askar_root) ∧
    deref st' (Loc 2)
    = Some (ObjPool IndyVdrLedgerPool
              {| name := PNone; keepalive := PNone; cache := None;
                 genesis_transactions := PNone; read_only := PNone;
                 socks_proxy := PNone |}).
Proof.
  apply (last_marked_entry_is_write_designation
           Scenario.all_importable Scenario.askar_root
           (Scenario.with_genesis
              [Scenario.entry "A" true true; Scenario.entry "B" false true;
               Scenario.entry "C" true false])
           Scenario.no_cache Scenario.empty_state askar_profile
           [Scenario.entry "A" true true] (Scenario.entry "B" false true)
           [Scenario.entry "C" true false]);
    try reflexivity.
  - repeat constructor.
  - intros _. exists Scenario.fallback_main, "main". split; reflexivity.
Defined.

(** ** The keys of the partitions *)

Lemma existsb_perm {A} (f : A → bool) l l' :
  l ≡ₚ l' → existsb f l = existsb f l'.
Proof.
  induction 1 as [|x l l' _ IH|x y l|l l' l'' _ IH1 _ IH2]; simpl.
  - done.
  - by rewrite IH.
  - by destruct (f x), (f y).
  - congruence.
Qed.

Lemma distinct_keys_perm l l' :
  l ≡ₚ l' → distinct_keys l = distinct_keys l'.
Proof.
  induction 1 as [|x l l' Hp IH|x y l|l l' l'' _ IH1 _ IH2]; simpl.
  - done.
  - by rewrite IH, (existsb_perm _ _ _ Hp).
  - rewrite (py_eqb_sym x y).
    destruct (py_eqb y x),
      (existsb (λ k', py_eqb k' y) l), (existsb (λ k', py_eqb k' x) l); done.
  - congruence.
Qed.

Lemma distinct_keys_cons k l :
  distinct_keys (k :: l) = true ↔
  existsb (λ k', py_eqb k' k) l = false ∧ distinct_keys l = true.
Proof.
  simpl. rewrite andb_true_iff, negb_true_iff. done.
Qed.

(** A key that is new to both partitions can join either. *)
Lemma distinct_keys_insert P N k R :
  distinct_keys (P ++ N ++ k :: R) = true →
  existsb (λ k', py_eqb k' k) P = false ∧
  existsb (λ k', py_eqb k' k) N = false ∧
  distinct_keys ((P ++ [k]) ++ N ++ R) = true ∧
  distinct_keys (P ++ (N ++ [k]) ++ R) = true.
Proof.
  intros D.
  assert (Hp : P ++ N ++ k :: R ≡ₚ k :: P ++ N ++ R).
  { rewrite !app_assoc. symmetry. apply Permutation_middle. }
  rewrite (distinct_keys_perm _ _ Hp) in D.
  apply distinct_keys_cons in D as [Hk D].
  rewrite !existsb_app in Hk.
  apply orb_false_iff in Hk as [HP Hk]. apply orb_false_iff in Hk as [HN HR].
  split; [done|]. split; [done|]. split.
  - rewrite (distinct_keys_perm _ (k :: P ++ N ++ R)).
    + apply distinct_keys_cons. rewrite !existsb_app, HP, HN, HR. done.
    + rewrite <- (app_assoc P [k]). simpl. symmetry. apply Permutation_middle.
  - rewrite (distinct_keys_perm _ (k :: P ++ N ++ R)).
    + apply distinct_keys_cons. rewrite !existsb_app, HP, HN, HR. done.
    + rewrite <- (app_assoc N [k]). simpl. rewrite !app_assoc.
      symmetry. apply Permutation_middle.
Qed.

(** With distinct ids, each partition holds the ids of its entries, in
    list order. *)
Lemma loop_vars_keys n configs vars :
  distinct_keys (keys (production vars) ++ keys (non_production vars) ++ ids configs)
  = true →
  keys (production (loop_vars n configs vars))
  = keys (production vars) ++ production_ids configs ∧
  keys (non_production (loop_vars n configs vars))
  = keys (non_production vars) ++ non_production_ids configs.
Proof.
  unfold production_ids, non_production_ids.
  revert n vars. induction configs as [|c rest IH]; intros n vars D.
  - simpl. by rewrite !app_nil_r.
  - change (ids (c :: rest)) with (get c "id" :: ids rest) in D.
    apply distinct_keys_insert in D as (HP & HN & DP & DN).
    rewrite <- contains_keys in HP, HN.
    cbn [loop_vars]. unfold entry_vars.
    destruct (truthy (get c "is_production")) eqn:Hprod.
    + rewrite filter_cons_True, filter_cons_False by (by rewrite ?Hprod).
      destruct (IH (S (S n))
        (Locals (setitem (get c "id") (Loc (S n)) (production vars))
                (non_production vars)
                (if truthy (get c "is_write")
                 then Some (get c "id", Loc (S n)) else write_info vars)))
        as [H1 H2].
      { cbn [production non_production]. by rewrite keys_setitem, HP. }
      cbn [production non_production] in H1, H2.
      rewrite keys_setitem, HP in H1. rewrite H1, H2.
      by rewrite <- app_assoc.
    + rewrite filter_cons_False, filter_cons_True by (by rewrite ?Hprod).
      destruct (IH (S (S n))
        (Locals (production vars)
                (setitem (get c "id") (Loc (S n)) (non_production vars))
                (if truthy (get c "is_write")
                 then Some (get c "id", Loc (S n)) else write_info vars)))
        as [H1 H2].
      { cbn [production non_production]. by rewrite keys_setitem, HN. }
      cbn [production non_production] in H1, H2.
      rewrite keys_setitem, HN in H2. rewrite H1, H2.
      by rewrite <- app_assoc.
Qed.

(** The two lists of ids together are the ids of the list. *)
Lemma partition_ids_perm configs :
  production_ids configs ++ non_production_ids configs ≡ₚ ids configs.
Proof.
  unfold production_ids, non_production_ids.
  induction configs as [|c rest IH]; [done|].
  destruct (truthy (get c "is_production")) eqn:Hprod.
  - rewrite filter_cons_True, filter_cons_False by (by rewrite ?Hprod).
    simpl. by rewrite IH.
  - rewrite filter_cons_False, filter_cons_True by (by rewrite ?Hprod).
    change (ids (c :: ?l)) with (get c "id" :: ids l).
    rewrite <- Permutation_middle. simpl. by rewrite IH.
Qed.

Lemma fallback_needs_ledger t root_profile vars st vars' st' :
  fallback t root_profile vars st = (Ok vars', st') →
  ∃ l s, bound_ledger root_profile = Some l ∧ pool_name l = PStr s.
Proof.
  destruct t; unfold fallback, basic_fallback, askar_fallback;
    rewrite run_inject_or_BaseLedger; unfold the_ledger;
    (destruct (bound_ledger root_profile) as [l|]; [rewrite run_ret|done]);
    unfold startup_id; destruct (pool_name l) eqn:Hs; try done; eauto.
Qed.

Lemma distinct_keys_app_l l1 l2 :
  distinct_keys (l1 ++ l2) = true → distinct_keys l1 = true.
Proof.
  induction l1 as [|k l1 IH]; [done|].
  rewrite <- app_comm_cons, !distinct_keys_cons, existsb_app.
  intros [[H1 _]%orb_false_iff H2]. auto.
Qed.

(** C4: when the ids of the entries are distinct as dictionary keys, and
    distinct from the synthetic id the fallback step adds, a construction
    that succeeds leaves in the two partitions together exactly those ids
    (with the synthetic id when the genesis flag is set), each once: no id
    is in both partitions. *)
Theorem partitions_hold_exactly_the_ids
    importable root_profile settings injector st t configs r st' :
  kind root_profile = kind_of t →
  _inst st !! MANAGER_TYPES t = None →
  settings !! "ledger.ledger_config_list" = Some (ConfigList configs) →
  distinct_keys (ids configs ++ injected_ids root_profile settings) = true →
  provide importable root_profile settings injector st = (Ok r, st') →
  ∃ args,
    deref st' r = Some (ObjManager (MANAGER_TYPES t) args) ∧
    keys (production_ledgers args) ++ keys (non_production_ledgers args)
      ≡ₚ ids configs ++ injected_ids root_profile settings ∧
    distinct_keys
      (keys (production_ledgers args) ++ keys (non_production_ledgers args))
    = true.
Proof.
  intros Hk Hmiss Hlist D Hrun.
  rewrite (provide_miss _ _ _ _ t) in Hrun by done.
  rewrite (collect_run _ _ _ _ _ _ Hlist) in Hrun. cbn [log heap] in Hrun.
  set (vars := loop_vars (length (heap st)) configs (Locals [] [] None)) in *.
  destruct (loop_vars_keys (length (heap st)) configs (Locals [] [] None))
    as [HP HN].
  { simpl. by apply distinct_keys_app_l in D. }
  fold vars in HP, HN. simpl in HP, HN.
  assert (Hgoal : ∀ vars' st2,
    keys (production vars') ++ keys (non_production vars')
      ≡ₚ ids configs ++ injected_ids root_profile settings →
    (if decide (MANAGER_TYPES t ∈ importable)
     then (Ok (Loc (length (heap st2))), constructed t root_profile vars' st2)
     else (Raise (InjectionError
                    ("Unknown multiple Indy ledger manager type: " +:+
                     manager_type_str t)
                    (ClassNotFoundError (MANAGER_TYPES t))),
           log (LoadClass (MANAGER_TYPES t)) st2)) = (Ok r, st') →
    ∃ args,
      deref st' r = Some (ObjManager (MANAGER_TYPES t) args) ∧
      keys (production_ledgers args) ++ keys (non_production_ledgers args)
        ≡ₚ ids configs ++ injected_ids root_profile settings ∧
      distinct_keys
        (keys (production_ledgers args) ++ keys (non_production_ledgers args))
      = true).
  { intros vars' st2 Hperm Hres. destruct (decide _); [|done].
    injection Hres as <- <-.
    eexists. split; [apply deref_constructed|].
    cbn [production_ledgers non_production_ledgers]. split; [done|].
    by rewrite (distinct_keys_perm _ _ Hperm). }
  unfold injected_ids in *.
  destruct (setting_truthy (settings !! "ledger.genesis_transactions")).
  - destruct (fallback t root_profile vars _) as [[vars'|e] st2] eqn:Hf; [|done].
    destruct (fallback_needs_ledger _ _ _ _ _ _ Hf) as (l & s & Hl & Hs).
    rewrite Hl, Hs in D |- *. rewrite Hl, Hs in Hgoal.
    assert (Hfresh : existsb (λ k', py_eqb k' (synthetic_id s))
                       (production_ids configs ++ non_production_ids configs)
                     = false).
    { rewrite (existsb_perm _ _ _ (partition_ids_perm configs)).
      rewrite (distinct_keys_perm _ (synthetic_id s :: ids configs)) in D
        by (symmetry; apply Permutation_cons_append).
      by apply distinct_keys_cons in D as [? _]. }
    rewrite existsb_app in Hfresh.
    apply orb_false_iff in Hfresh as [HfP HfN].
    rewrite <- HP, <- contains_keys in HfP.
    rewrite <- HN, <- contains_keys in HfN.
    apply (Hgoal vars' st2); [|done]. clear Hgoal Hrun.
    rewrite <- (partition_ids_perm configs), <- HP, <- HN.
    destruct (write_info vars) as [w|] eqn:Hw.
    + rewrite (fallback_designated _ _ _ Hl Hs _ _ w) in Hf by done.
      injection Hf as <- _. cbn [production non_production].
      rewrite keys_setitem, HfP, <- !app_assoc.
      apply Permutation_app_head, Permutation_app_comm.
    + destruct t; unfold fallback in Hf.
      * rewrite (basic_fallback_undesignated _ _ _ Hl Hs) in Hf by done.
        injection Hf as <- _. cbn [production non_production].
        rewrite without_fresh by done. simpl.
        apply Permutation_cons_append.
      * rewrite (askar_fallback_undesignated _ _ _ Hl Hs) in Hf by done.
        apply move_to_end_first_none in HfN. by rewrite HfN in Hf.
  - unfold mret, M_ret in Hrun. eapply (Hgoal vars); [|exact Hrun].
    rewrite app_nil_r, HP, HN. apply partition_ids_perm.
Qed.

Lemma partitions_hold_exactly_the_ids_witness :
  ∃ args,
    deref Scenario.after_two_entries (Loc 4)
    = Some (ObjManager basic_manager_path args) ∧
    keys (production_ledgers args) ++ keys (non_production_ledgers args)
      ≡ₚ [PStr "L1"; PStr "L2"; PStr "startup::main"] ∧
    distinct_keys
      (keys (production_ledgers args) ++ keys (non_production_ledgers args))
    = true.
Proof.
  apply (partitions_hold_exactly_the_ids
           Scenario.all_importable Scenario.sdk_root
           (Scenario.with_genesis [Scenario.L1; Scenario.entry "L2" false true])
           Scenario.no_cache Scenario.empty_state basic
           [Scenario.L1; Scenario.entry "L2" false true]);
    reflexivity.
Defined.

(** ** Insertion order *)

(** In the "basic" branch, with distinct ids, each partition lists its
    entries in the order of the configuration list, and a startup ledger
    that becomes the write designation comes first in the production
    partition. *)
Lemma basic_insertion_order
    importable root_profile settings injector st configs l s :
  kind root_profile = IndySdkProfile →
  _inst st !! basic_manager_path = None →
  basic_manager_path ∈ importable →
  settings !! "ledger.ledger_config_list" = Some (ConfigList configs) →
  setting_truthy (settings !! "ledger.genesis_transactions") = true →
  Forall (λ config, truthy (get config "is_write") = false) configs →
  bound_ledger root_profile = Some l →
  pool_name l = PStr s →
  distinct_keys (ids configs ++ [synthetic_id s]) = true →
  ∃ r st' args,
    provide importable root_profile settings injector st = (Ok r, st') ∧
    deref st' r = Some (ObjManager basic_manager_path args) ∧
    keys (production_ledgers args) = synthetic_id s :: production_ids configs ∧
    keys (non_production_ledgers args) = non_production_ids configs ∧
    write_ledger_info args = Some (synthetic_id s, ledger_ref l).
Proof.
  intros Hk Hmiss Hin Hlist Hgen Hnw Hl Hs D.
  set (vars := loop_vars (length (heap st)) configs (Locals [] [] None)).
  assert (Hw : write_info vars = None).
  { unfold vars. by rewrite loop_vars_no_write. }
  destruct (loop_vars_keys (length (heap st)) configs (Locals [] [] None))
    as [HP HN].
  { simpl. by apply distinct_keys_app_l in D. }
  fold vars in HP, HN. simpl in HP, HN.
  assert (Hfresh : contains (synthetic_id s) (production vars) = false).
  { rewrite (distinct_keys_perm _ (synthetic_id s :: ids configs)) in D
      by (symmetry; apply Permutation_cons_append).
    apply distinct_keys_cons in D as [D _].
    rewrite <- (existsb_perm _ _ _ (partition_ids_perm configs)), existsb_app in D.
    apply orb_false_iff in D as [D _]. by rewrite contains_keys, HP. }
  pose proof (provide_miss importable root_profile settings injector basic st
                Hk Hmiss) as Hrun.
  rewrite (collect_run _ _ _ _ _ _ Hlist), Hgen in Hrun.
  cbn [log heap] in Hrun. fold vars in Hrun. unfold fallback in Hrun.
  rewrite (basic_fallback_undesignated _ _ _ Hl Hs) in Hrun by done.
  rewrite decide_True in Hrun by done.
  eexists _, _, _. split; [exact Hrun|]. split; [apply deref_constructed|].
  cbn [production_ledgers non_production_ledgers write_ledger_info
       production non_production write_info].
  rewrite without_fresh by done. simpl. by rewrite HP, HN.
Qed.

(** * More on the provider *)

(** ** A construction, step by step *)

(** The fallback step in closed form: its only effect on the world is the
    call of [inject_or]. *)
Lemma fallback_outcome t root_profile vars st :
  fallback t root_profile vars st
  = (fallback_result t root_profile vars, log InjectLedger st).
Proof.
  unfold fallback_result, after_fallback.
  destruct t; unfold fallback, basic_fallback, askar_fallback;
    rewrite run_inject_or_BaseLedger; unfold the_ledger;
    (destruct (bound_ledger root_profile) as [l|]; [rewrite run_ret|done]);
    unfold startup_id; (destruct (pool_name l) as [| | |s]; try done);
    rewrite run_ret; unfold move_to_front, synthetic_id;
    (destruct (write_info vars); [done|]); simpl;
    destruct (move_to_end_first _ _); done.
Qed.

(** The loop sets a write designation exactly when an entry is marked. *)
Lemma loop_vars_write_none n configs vars :
  write_info (loop_vars n configs vars) = None ↔
  write_info vars = None ∧ marked configs = false.
Proof.
  unfold marked. revert n vars.
  induction configs as [|c rest IH]; intros n vars; simpl; [tauto|].
  rewrite IH, orb_false_iff. unfold entry_vars.
  destruct (truthy (get c "is_write")), (truthy (get c "is_production"));
    simpl; intuition congruence.
Qed.

(** The keys of the non-production partition after the loop. *)
Lemma loop_vars_non_production_contains k n configs vars :
  contains k (non_production (loop_vars n configs vars))
  = contains k (non_production vars) || non_production_has k configs.
Proof.
  unfold non_production_has. revert n vars.
  induction configs as [|c rest IH]; intros n vars; simpl.
  - by rewrite orb_false_r.
  - rewrite IH. unfold entry_vars.
    destruct (truthy (get c "is_production")); simpl; [done|].
    by rewrite contains_setitem, orb_assoc.
Qed.

Lemma move_to_end_first_setitem_str {V} s (v : V) d :
  move_to_end_first (PStr s) (setitem (PStr s) v d)
  = Some ((PStr s, v) :: without (PStr s) d).
Proof.
  unfold move_to_end_first. by rewrite getitem_setitem_str, without_setitem.
Qed.

(** When the fallback step goes through. *)
Lemma after_fallback_some t s r n configs :
  is_Some (after_fallback t (synthetic_id s) r
             (loop_vars n configs (Locals [] [] None))) ↔
  marked configs ||
  match t with
  | basic => true
  | askar_profile => non_production_has (synthetic_id s) configs
  end = true.
Proof.
  unfold after_fallback.
  destruct (write_info (loop_vars n configs (Locals [] [] None))) as [w|] eqn:Hw.
  - assert (marked configs = true) as ->.
    { destruct (marked configs) eqn:Hm; [done|].
      assert (write_info (loop_vars n configs (Locals [] [] None)) = None)
        by (by apply loop_vars_write_none).
      congruence. }
    split; eauto.
  - apply loop_vars_write_none in Hw as [_ ->]. simpl.
    destruct t.
    + unfold synthetic_id. rewrite move_to_end_first_setitem_str. simpl.
      split; eauto.
    + destruct (move_to_end_first _ _) as [moved|] eqn:Hm; simpl.
      * split; [intros _|eauto].
        destruct (non_production_has _ _) eqn:Hh; [done|].
        assert (move_to_end_first (synthetic_id s)
                  (non_production (loop_vars n configs (Locals [] [] None)))
                = None); [|congruence].
        apply move_to_end_first_none.
        by rewrite loop_vars_non_production_contains, Hh.
      * apply move_to_end_first_none in Hm.
        rewrite loop_vars_non_production_contains in Hm. simpl in Hm.
        rewrite Hm. split; [by intros [? ?]|done].
Qed.

Lemma collected_heap t root_profile settings injector configs st :
  heap (collected_state t root_profile settings injector configs st)
  = heap st ++
    loop_objs (pool_class_of t) (ledger_class_of t) root_profile injector
      (length (heap st)) configs.
Proof. unfold collected_state. by destruct (setting_truthy _). Qed.

Lemma collected_inst t root_profile settings injector configs st :
  _inst (collected_state t root_profile settings injector configs st) = _inst st.
Proof. unfold collected_state. by destruct (setting_truthy _). Qed.

Lemma collected_length t root_profile settings injector configs st :
  length (heap (collected_state t root_profile settings injector configs st))
  = length (heap st) + 2 * length configs.
Proof. by rewrite collected_heap, length_app, loop_objs_length. Qed.

(** A construction from a list of entries, in closed form. *)
Lemma provide_fresh importable root_profile settings injector t st configs :
  kind root_profile = kind_of t →
  _inst st !! MANAGER_TYPES t = None →
  settings !! "ledger.ledger_config_list" = Some (ConfigList configs) →
  provide importable root_profile settings injector st
  = match collected_result t root_profile settings configs (length (heap st)) with
    | Ok vars' =>
        if decide (MANAGER_TYPES t ∈ importable) then
          (Ok (Loc (length (heap st) + 2 * length configs)),
           constructed t root_profile vars'
             (collected_state t root_profile settings injector configs st))
        else
          (Raise (InjectionError
                    ("Unknown multiple Indy ledger manager type: " +:+
                     manager_type_str t)
                    (ClassNotFoundError (MANAGER_TYPES t))),
           log (LoadClass (MANAGER_TYPES t))
             (collected_state t root_profile settings injector configs st))
    | Raise e =>
        (Raise e, collected_state t root_profile settings injector configs st)
    end.
Proof.
  intros Hk Hmiss Hlist.
  rewrite (provide_miss _ _ _ _ t) by done.
  rewrite (collect_run _ _ _ _ _ _ Hlist). cbn [log heap].
  pose proof (collected_length t root_profile settings injector configs st)
    as Hlen.
  unfold collected_result, collected_state in *.
  destruct (setting_truthy _).
  - rewrite fallback_outcome.
    destruct (fallback_result _ _ _); [|done]. by rewrite Hlen.
  - unfold mret, M_ret. by rewrite Hlen.
Qed.

(** [constructible] is: the class resolves and the entries are collected. *)
Lemma constructible_collected importable t root_profile settings configs n :
  constructible importable t root_profile settings configs
  = bool_decide (MANAGER_TYPES t ∈ importable) &&
    is_ok (collected_result t root_profile settings configs n).
Proof.
  unfold constructible, collected_result, fallback_result. f_equal.
  destruct (setting_truthy _); [|done].
  destruct (bound_ledger root_profile) as [l|]; [|done].
  destruct (pool_name l) as [| | |s]; try done.
  pose proof (after_fallback_some t s (ledger_ref l) n configs) as Hsome.
  destruct (after_fallback _ _ _ _) as [vars'|].
  - by rewrite (proj1 Hsome) by eauto.
  - destruct (marked configs || _); [|done]. by destruct (proj2 Hsome eq_refl).
Qed.

(** X1: with no manager stored yet and a list of entries in the settings,
    [provide] returns a manager exactly on the inputs [constructible]
    accepts: the manager class resolves, and when the genesis flag is set
    the root profile has a startup ledger whose pool name is a string and
    either an entry is marked as the write ledger, or the branch is the
    "basic" one, or a non-production entry has the synthetic id. *)
Theorem constructible_iff importable root_profile settings injector t st configs :
  kind root_profile = kind_of t →
  _inst st !! MANAGER_TYPES t = None →
  settings !! "ledger.ledger_config_list" = Some (ConfigList configs) →
  is_ok (provide importable root_profile settings injector st).1
  = constructible importable t root_profile settings configs.
Proof.
  intros Hk Hmiss Hlist.
  rewrite (provide_fresh _ _ _ _ t st configs) by done.
  rewrite (constructible_collected _ _ _ _ _ (length (heap st))).
  destruct (collected_result _ _ _ _ _); [|by rewrite andb_false_r].
  by destruct (decide _);
    [rewrite bool_decide_eq_true_2|rewrite bool_decide_eq_false_2].
Qed.

Lemma constructible_iff_witness :
  is_ok (provide Scenario.all_importable Scenario.askar_root
           (Scenario.with_genesis [Scenario.L1]) Scenario.no_cache
           Scenario.empty_state).1 = false ∧
  is_ok (provide Scenario.all_importable Scenario.askar_root
           (Scenario.with_genesis
              [Scenario.L1; Scenario.entry "startup::main" false false])
           Scenario.no_cache Scenario.empty_state).1 = true.
Proof.
  split.
  - apply (constructible_iff Scenario.all_importable Scenario.askar_root
             (Scenario.with_genesis [Scenario.L1]) Scenario.no_cache
             askar_profile Scenario.empty_state [Scenario.L1]);
      reflexivity.
  - apply (constructible_iff Scenario.all_importable Scenario.askar_root
             (Scenario.with_genesis
                [Scenario.L1; Scenario.entry "startup::main" false false])
             Scenario.no_cache askar_profile Scenario.empty_state
             [Scenario.L1; Scenario.entry "startup::main" false false]);
      reflexivity.
Defined.

(** ** Calls in sequence *)

(** Once a manager is stored, every call returns it and changes nothing. *)
Lemma cached_stays root_profile t r calls st :
  kind root_profile = kind_of t →
  _inst st !! MANAGER_TYPES t = Some r →
  provide_each root_profile calls st = (replicate (length calls) (Ok r), st).
Proof.
  intros Hk Hr. induction calls as [|c rest IH]; [done|].
  simpl. rewrite (provide_cached _ _ _ _ t r) by done. simpl. by rewrite IH.
Qed.

(** With an unrecognised root profile every call raises and changes
    nothing. *)
Lemma unrecognised_stays root_profile calls st :
  kind root_profile = OtherProfile →
  provide_each root_profile calls st
  = (replicate (length calls)
       (Raise (MultipleLedgerManagerError root_profile_error)), st).
Proof.
  intros Hk. induction calls as [|c rest IH]; [done|].
  simpl. rewrite provide_unrecognised by done. simpl. by rewrite IH.
Qed.

(** X2: over any sequence of calls of [provide] on one provider, whatever
    the settings, injectors and class loaders of the calls and whichever of
    them fail, all the calls that return a manager return the same
    reference. *)
Theorem all_successes_same_instance root_profile calls st i j r1 r2 :
  (provide_each root_profile calls st).1 !! i = Some (Ok r1) →
  (provide_each root_profile calls st).1 !! j = Some (Ok r2) →
  r1 = r2.
Proof.
  assert (Hlater : ∀ c rest st k r r',
    (provide (call_importable c) root_profile (call_settings c)
       (call_injector c) st).1 = Ok r →
    (provide_each root_profile rest
       (provide (call_importable c) root_profile (call_settings c)
          (call_injector c) st).2).1 !! k = Some (Ok r') →
    r = r').
  { intros c rest st0 k r r' Hfirst Hk.
    destruct (provide _ _ _ _ st0) as [res st1] eqn:Hp. simpl in *. subst res.
    destruct (kind_cases root_profile) as [Ho|[t Ht]].
    - by rewrite provide_unrecognised in Hp.
    - apply (provide_ok_stored _ _ _ _ t) in Hp; [|done].
      rewrite (cached_stays _ t r) in Hk by done. simpl in Hk.
      apply lookup_replicate in Hk as [[= ->] _]. done. }
  revert st i j. induction calls as [|c rest IH]; intros st i j; [done|].
  simpl. destruct i as [|i], j as [|j]; simpl.
  - congruence.
  - intros [= H1] H2. eauto.
  - intros H1 [= H2]. symmetry. eauto.
  - apply IH.
Qed.

Lemma all_successes_same_instance_witness :
  (provide_each Scenario.sdk_root Scenario.three_calls Scenario.empty_state).1 !! 1
  = Some (Ok (Loc 4)) ∧
  (provide_each Scenario.sdk_root Scenario.three_calls Scenario.empty_state).1 !! 2
  = Some (Ok (Loc 4)) ∧
  Loc 4 = Loc 4.
Proof.
  split; [vm_compute; reflexivity|]. split; [vm_compute; reflexivity|].
  apply (all_successes_same_instance Scenario.sdk_root Scenario.three_calls
           Scenario.empty_state 1 2);
    vm_compute; reflexivity.
Defined.

(** A call that raises leaves no manager stored. *)
Lemma provide_raise_miss importable root_profile settings injector t st e st1 :
  kind root_profile = kind_of t →
  provide importable root_profile settings injector st = (Raise e, st1) →
  _inst st1 !! MANAGER_TYPES t = None.
Proof.
  intros Hk. destruct (_inst st !! MANAGER_TYPES t) as [r0|] eqn:Hr.
  - by rewrite (provide_cached _ _ _ _ t r0).
  - rewrite (provide_miss _ _ _ _ t) by done.
    pose proof (collect_frame t root_profile settings injector
                  (log (LogInfo (manager_type_str t)) st)) as [Hinst _].
    destruct (collect _ _ _ _ _) as [[vars|e0] st2]; simpl in Hinst.
    + destruct (decide _); [done|]. intros [= <- <-]. simpl. congruence.
    + intros [= <- <-]. congruence.
Qed.

(** X3: a failure is not remembered.  After a call that raised, a call on
    inputs that [constructible] accepts builds a new manager: it is
    allocated after the two objects of each entry, themselves after
    whatever the failed call left in the heap, and it is stored. *)
Theorem retry_after_failure_constructs
    importable root_profile settings injector st e st1
    importable' settings' injector' t configs :
  provide importable root_profile settings injector st = (Raise e, st1) →
  kind root_profile = kind_of t →
  settings' !! "ledger.ledger_config_list" = Some (ConfigList configs) →
  constructible importable' t root_profile settings' configs = true →
  ∃ st2 args,
    provide importable' root_profile settings' injector' st1
    = (Ok (Loc (length (heap st1) + 2 * length configs)), st2) ∧
    deref st2 (Loc (length (heap st1) + 2 * length configs))
    = Some (ObjManager (MANAGER_TYPES t) args) ∧
    _inst st2 !! MANAGER_TYPES t
    = Some (Loc (length (heap st1) + 2 * length configs)).
Proof.
  intros Hfail Hk Hlist Hc.
  apply (provide_raise_miss _ _ _ _ t) in Hfail; [|done].
  rewrite (constructible_collected _ _ _ _ _ (length (heap st1))) in Hc.
  apply andb_true_iff in Hc as [Hin%bool_decide_eq_true Hc].
  rewrite (provide_fresh _ _ _ _ t st1 configs) by done.
  destruct (collected_result _ _ _ _ _) as [vars'|]; [|done].
  rewrite decide_True by done.
  eexists _, _. split; [done|].
  rewrite <- (collected_length t root_profile settings' injector' configs st1).
  split; [apply deref_constructed|].
  rewrite inst_constructed. apply lookup_insert_eq.
Qed.

Lemma retry_after_failure_constructs_witness :
  ∃ st2 args,
    provide Scenario.all_importable Scenario.sdk_root
      (Scenario.with_genesis [Scenario.L1]) Scenario.no_cache
      Scenario.after_failed_call
    = (Ok (Loc 4), st2) ∧
    deref st2 (Loc 4) = Some (ObjManager basic_manager_path args) ∧
    _inst st2 !! basic_manager_path = Some (Loc 4).
Proof.
  apply (retry_after_failure_constructs
           Scenario.none_importable Scenario.sdk_root
           (Scenario.without_genesis [Scenario.L1]) Scenario.no_cache
           Scenario.empty_state
           (InjectionError "Unknown multiple Indy ledger manager type: basic"
              (ClassNotFoundError basic_manager_path))
           Scenario.after_failed_call
           Scenario.all_importable (Scenario.with_genesis [Scenario.L1])
           Scenario.no_cache basic [Scenario.L1]);
    reflexivity.
Defined.

Lemma managers_app h1 h2 : managers (h1 ++ h2) = managers h1 + managers h2.
Proof. unfold managers. by rewrite List.filter_app, length_app. Qed.

Lemma managers_loop_objs pc lc root_profile injector n configs :
  managers (loop_objs pc lc root_profile injector n configs) = 0.
Proof.
  revert n. induction configs as [|c rest IH]; intros n; [done|].
  cbn [loop_objs]. by rewrite managers_app, IH.
Qed.

(** No manager is constructed before the class is resolved. *)
Lemma collect_managers t root_profile settings injector st :
  managers (heap (collect t root_profile settings injector st).2)
  = managers (heap st).
Proof.
  destruct (settings !! "ledger.ledger_config_list") as [[v|configs]|] eqn:Hlist.
  - unfold collect. rewrite run_get_value, Hlist. unfold for_configs.
    destruct v as [| | |s]; try by rewrite run_raise.
    destruct (String.eqb s ""); [|by rewrite run_raise].
    rewrite run_ret. simpl for_each. rewrite run_ret, run_get_value.
    destruct (setting_truthy _); [by rewrite fallback_outcome|done].
  - rewrite (collect_run _ _ _ _ _ _ Hlist).
    assert (Hloop : ∀ st0,
      managers (heap (after_loop (pool_class_of t) (ledger_class_of t)
                        root_profile injector configs st0))
      = managers (heap st0)).
    { intros st0. cbn [after_loop heap].
      rewrite managers_app, managers_loop_objs. lia. }
    destruct (setting_truthy _).
    + rewrite fallback_outcome. cbn [snd log heap]. by rewrite Hloop.
    + unfold mret, M_ret. cbn [snd log heap]. by rewrite Hloop.
  - unfold collect. rewrite run_get_value, Hlist. unfold for_configs.
    by rewrite run_raise.
Qed.

(** A call with no manager stored: a success adds one manager and stores
    it, a failure adds none and stores none. *)
Lemma provide_miss_managers importable root_profile settings injector t st :
  kind root_profile = kind_of t →
  _inst st !! MANAGER_TYPES t = None →
  let out := provide importable root_profile settings injector st in
  if is_ok out.1
  then managers (heap out.2) = S (managers (heap st)) ∧
       is_Some (_inst out.2 !! MANAGER_TYPES t)
  else managers (heap out.2) = managers (heap st) ∧
       _inst out.2 !! MANAGER_TYPES t = None.
Proof.
  intros Hk Hmiss. cbv zeta. rewrite (provide_miss _ _ _ _ t) by done.
  pose proof (collect_managers t root_profile settings injector
                (log (LogInfo (manager_type_str t)) st)) as Hm.
  pose proof (collect_frame t root_profile settings injector
                (log (LogInfo (manager_type_str t)) st)) as [Hinst _].
  destruct (collect _ _ _ _ _) as [[vars|e] st2]; cbn [fst snd log heap _inst] in *.
  - destruct (decide _); cbn [is_ok fst snd log heap _inst].
    + split.
      * cbn [constructed store alloc log heap]. rewrite managers_app, Hm.
        unfold manager_of. cbn. lia.
      * rewrite inst_constructed, lookup_insert_eq. eauto.
    + split; [done|by rewrite Hinst].
  - cbn [is_ok]. split; [done|by rewrite Hinst].
Qed.

Lemma existsb_replicate_false {A} (f : A → bool) n x :
  f x = false → existsb f (replicate n x) = false.
Proof. intros Hx. induction n as [|n IH]; simpl; [done|]. by rewrite Hx. Qed.

(** X4: a provider constructs at most one manager over its lifetime.  From
    its initialisation on, after any sequence of calls of [provide], the
    heap holds one manager more than before if some call succeeded, and no
    more than before otherwise. *)
Theorem manager_constructed_at_most_once root_profile calls st :
  managers (heap (provide_each root_profile calls (init st)).2)
  = managers (heap st) +
    (if existsb is_ok (provide_each root_profile calls (init st)).1 then 1 else 0).
Proof.
  destruct (kind_cases root_profile) as [Ho|[t Ht]].
  - rewrite unrecognised_stays by done. cbn [fst snd init heap].
    rewrite existsb_replicate_false by done. lia.
  - change (managers (heap st)) with (managers (heap (init st))).
    assert (Hmiss : _inst (init st) !! MANAGER_TYPES t = None) by done.
    revert Hmiss. generalize (init st). clear st.
    induction calls as [|c rest IH]; intros st Hmiss; [simpl; lia|].
    cbn [provide_each fst snd existsb].
    pose proof (provide_miss_managers (call_importable c) root_profile
                  (call_settings c) (call_injector c) t st Ht Hmiss) as Hcall.
    cbv zeta in Hcall.
    destruct (is_ok _).
    + destruct Hcall as [Hm [r Hr]].
      rewrite (cached_stays _ t r) by done. cbn [fst snd orb]. lia.
    + destruct Hcall as [Hm Hr]. rewrite IH by done. cbn [orb]. lia.
Qed.

(** ** Failures before the construction *)

(** X5: settings without ["ledger.ledger_config_list"] make the
    construction raise [TypeError], the loop having nothing to iterate
    over: the settings were read once, nothing was built or stored, and the
    genesis flag was not looked at. *)
Theorem missing_config_list_raises_TypeError
    importable root_profile settings injector t st :
  kind root_profile = kind_of t →
  _inst st !! MANAGER_TYPES t = None →
  settings !! "ledger.ledger_config_list" = None →
  provide importable root_profile settings injector st
  = (Raise TypeError,
     {| heap := heap st;
        _inst := _inst st;
        trace := trace st ++ [LogInfo (manager_type_str t);
                              GetValue "ledger.ledger_config_list"] |}).
Proof.
  intros Hk Hmiss Hlist. rewrite (provide_miss _ _ _ _ t) by done.
  unfold collect. rewrite run_get_value, Hlist. unfold for_configs.
  rewrite run_raise. unfold log. cbn [heap _inst trace].
  by rewrite <- app_assoc.
Qed.

Lemma missing_config_list_raises_TypeError_witness :
  provide Scenario.all_importable Scenario.askar_root ∅ Scenario.no_cache
    Scenario.empty_state
  = (Raise TypeError,
     {| heap := []; _inst := ∅;
        trace := [LogInfo "askar-profile";
                  GetValue "ledger.ledger_config_list"] |}).
Proof.
  apply (missing_config_list_raises_TypeError Scenario.all_importable
           Scenario.askar_root ∅ Scenario.no_cache askar_profile
           Scenario.empty_state);
    reflexivity.
Defined.

Lemma collected_trace t root_profile settings injector configs st :
  trace (collected_state t root_profile settings injector configs st)
  = trace st ++
    [LogInfo (manager_type_str t); GetValue "ledger.ledger_config_list"] ++
    repeat InjectCache (length configs) ++
    [GetValue "ledger.genesis_transactions"] ++
    (if setting_truthy (settings !! "ledger.genesis_transactions")
     then [InjectLedger] else []).
Proof.
  unfold collected_state.
  destruct (setting_truthy _); cbn [log after_loop trace];
    rewrite <- ?app_assoc; cbn [app]; by rewrite ?app_nil_r.
Qed.

(** X6: with the genesis flag set, a root profile that has no ledger bound
    makes the construction raise [AttributeError], and one whose ledger
    has a pool name that is not a string makes it raise [TypeError].
    Either way this happens after the loop: the pool and the ledger of
    every entry were built, the class loader was not called, and nothing
    is stored. *)
Theorem genesis_without_startup_ledger_raises
    importable root_profile settings injector t st configs e :
  kind root_profile = kind_of t →
  _inst st !! MANAGER_TYPES t = None →
  settings !! "ledger.ledger_config_list" = Some (ConfigList configs) →
  setting_truthy (settings !! "ledger.genesis_transactions") = true →
  (bound_ledger root_profile = None ∧ e = AttributeError) ∨
  (∃ l, bound_ledger root_profile = Some l ∧ (∀ s, pool_name l ≠ PStr s) ∧
        e = TypeError) →
  ∃ st',
    provide importable root_profile settings injector st = (Raise e, st') ∧
    _inst st' = _inst st ∧
    length (heap st') = length (heap st) + 2 * length configs ∧
    trace st'
    = trace st ++
      [LogInfo (manager_type_str t); GetValue "ledger.ledger_config_list"] ++
      repeat InjectCache (length configs) ++
      [GetValue "ledger.genesis_transactions"; InjectLedger].
Proof.
  intros Hk Hmiss Hlist Hgen Hroot.
  exists (collected_state t root_profile settings injector configs st).
  split; [|split; [apply collected_inst|split; [apply collected_length|]]].
  - rewrite (provide_fresh _ _ _ _ t st configs) by done.
    unfold collected_result, fallback_result. rewrite Hgen.
    destruct Hroot as [[-> ->]|(l & -> & Hname & ->)]; [done|].
    destruct (pool_name l) as [| | |s]; try done. by destruct (Hname s).
  - by rewrite collected_trace, Hgen.
Qed.

Lemma genesis_without_startup_ledger_raises_witness :
  ∃ st',
    provide Scenario.all_importable Scenario.bare_root
      (Scenario.with_genesis [Scenario.entry "L1" true true]) Scenario.no_cache
      Scenario.empty_state = (Raise AttributeError, st') ∧
    _inst st' = ∅ ∧
    length (heap st') = 2 ∧
    trace st'
    = [LogInfo "askar-profile"; GetValue "ledger.ledger_config_list";
       InjectCache; GetValue "ledger.genesis_transactions"; InjectLedger].
Proof.
  apply (genesis_without_startup_ledger_raises Scenario.all_importable
           Scenario.bare_root
           (Scenario.with_genesis [Scenario.entry "L1" true true])
           Scenario.no_cache askar_profile Scenario.empty_state
           [Scenario.entry "L1" true true] AttributeError);
    try reflexivity.
  left. split; reflexivity.
Defined.

(** ** What a construction does to the world *)

(** X7: a construction that succeeds calls its collaborators in this order
    and no more: it logs once, reads the list of entries, asks the
    injector for the cache once per entry, reads the genesis flag, asks
    the root profile for its ledger only when the flag is set, and resolves
    the manager class once, last. *)
Theorem construction_trace
    importable root_profile settings injector t st configs r st' :
  kind root_profile = kind_of t →
  _inst st !! MANAGER_TYPES t = None →
  settings !! "ledger.ledger_config_list" = Some (ConfigList configs) →
  provide importable root_profile settings injector st = (Ok r, st') →
  trace st'
  = trace st ++
    [LogInfo (manager_type_str t); GetValue "ledger.ledger_config_list"] ++
    repeat InjectCache (length configs) ++
    [GetValue "ledger.genesis_transactions"] ++
    (if setting_truthy (settings !! "ledger.genesis_transactions")
     then [InjectLedger] else []) ++
    [LoadClass (MANAGER_TYPES t)].
Proof.
  intros Hk Hmiss Hlist.
  rewrite (provide_fresh _ _ _ _ t st configs) by done.
  destruct (collected_result _ _ _ _ _) as [vars'|]; [|done].
  destruct (decide _); [|done]. intros [= <- <-].
  cbn [constructed store alloc log trace]. rewrite collected_trace.
  by rewrite <- !app_assoc.
Qed.

Lemma construction_trace_witness :
  trace Scenario.after_two_entries
  = [LogInfo "basic"; GetValue "ledger.ledger_config_list";
     InjectCache; InjectCache;
     GetValue "ledger.genesis_transactions"; InjectLedger;
     LoadClass basic_manager_path].
Proof.
  apply (construction_trace Scenario.all_importable Scenario.sdk_root
           (Scenario.with_genesis [Scenario.L1; Scenario.entry "L2" false true])
           Scenario.no_cache basic Scenario.empty_state
           [Scenario.L1; Scenario.entry "L2" false true] (Loc 4));
    reflexivity.
Defined.

(** ** The partitions when the ids are distinct *)

Lemma keys_items n configs :
  keys (items true n configs) = production_ids configs ∧
  keys (items false n configs) = non_production_ids configs.
Proof.
  unfold production_ids, non_production_ids, keys.
  revert n. induction configs as [|c rest IH]; intros n; [done|].
  destruct (IH (S (S n))) as [IH1 IH2]. cbn [items].
  destruct (truthy (get c "is_production")) eqn:Hprod; cbn [Bool.eqb app map].
  - rewrite filter_cons_True, filter_cons_False by (by rewrite ?Hprod).
    by rewrite IH1, IH2.
  - rewrite filter_cons_False, filter_cons_True by (by rewrite ?Hprod).
    by rewrite IH1, IH2.
Qed.

Lemma items_app b n l1 l2 :
  items b n (l1 ++ l2) = items b n l1 ++ items b (n + 2 * length l1) l2.
Proof.
  revert n. induction l1 as [|c l1 IH]; intros n.
  - simpl. by rewrite Nat.add_0_r.
  - cbn [items app length]. rewrite IH, <- app_assoc.
    by replace (S (S n) + 2 * length l1) with (n + 2 * S (length l1)) by lia.
Qed.

(** With distinct ids every assignment of the loop appends. *)
Lemma loop_vars_items n configs vars :
  distinct_keys (keys (production vars) ++ keys (non_production vars) ++ ids configs)
  = true →
  production (loop_vars n configs vars) = production vars ++ items true n configs ∧
  non_production (loop_vars n configs vars)
  = non_production vars ++ items false n configs.
Proof.
  revert n vars. induction configs as [|c rest IH]; intros n vars D.
  - simpl. by rewrite !app_nil_r.
  - change (ids (c :: rest)) with (get c "id" :: ids rest) in D.
    apply distinct_keys_insert in D as (HP & HN & DP & DN).
    rewrite <- contains_keys in HP, HN.
    cbn [loop_vars items]. unfold entry_vars.
    destruct (truthy (get c "is_production")) eqn:Hprod; cbn [Bool.eqb].
    + destruct (IH (S (S n))
        (Locals (setitem (get c "id") (Loc (S n)) (production vars))
                (non_production vars)
                (if truthy (get c "is_write")
                 then Some (get c "id", Loc (S n)) else write_info vars)))
        as [H1 H2].
      { cbn [production non_production]. by rewrite keys_setitem, HP. }
      cbn [production non_production] in H1, H2.
      rewrite H1, H2, setitem_fresh by done.
      by rewrite <- app_assoc.
    + destruct (IH (S (S n))
        (Locals (production vars)
                (setitem (get c "id") (Loc (S n)) (non_production vars))
                (if truthy (get c "is_write")
                 then Some (get c "id", Loc (S n)) else write_info vars)))
        as [H1 H2].
      { cbn [production non_production]. by rewrite keys_setitem, HN. }
      cbn [production non_production] in H1, H2.
      rewrite H1, H2, setitem_fresh by done.
      by rewrite <- app_assoc.
Qed.

(** The write designation the loop leaves is the last marked entry. *)
Lemma loop_vars_write_some n configs w :
  write_info (loop_vars n configs (Locals [] [] None)) = Some w →
  ∃ pre config post,
    configs = pre ++ config :: post ∧
    w = (get config "id", Loc (S (n + 2 * length pre))).
Proof.
  intros Hw.
  destruct (decide (Exists (λ config, truthy (get config "is_write") = true)
                      configs)) as [Hex|Hex].
  - destruct (last_marked_split configs Hex)
      as (pre & config & post & -> & Hc & Hpost).
    rewrite loop_vars_last_write in Hw by done.
    exists pre, config, post. split; congruence.
  - rewrite loop_vars_no_write in Hw; [done|].
    apply Forall_forall. intros x Hx. apply not_true_is_false.
    intros Hx'. apply Hex, Exists_exists. eauto.
Qed.

(** The local variables at the end of a construction from distinct ids. *)
Lemma collected_contents t root_profile settings configs n vars' :
  distinct_keys (ids configs ++ injected_ids root_profile settings) = true →
  collected_result t root_profile settings configs n = Ok vars' →
  non_production vars' = items false n configs ∧
  production vars'
  = (if marked configs
     then items true n configs ++ injected_items root_profile settings
     else injected_items root_profile settings ++ items true n configs) ∧
  write_info vars'
  = match write_info (loop_vars n configs (Locals [] [] None)) with
    | Some w => Some w
    | None => head (injected_items root_profile settings)
    end.
Proof.
  intros D.
  destruct (loop_vars_items n configs (Locals [] [] None)) as [HP HN].
  { simpl. by apply distinct_keys_app_l in D. }
  simpl in HP, HN.
  unfold collected_result, fallback_result, injected_items, injected_ids in *.
  destruct (setting_truthy _).
  - destruct (bound_ledger root_profile) as [l|]; [|done].
    destruct (pool_name l) as [| | |s]; try done.
    assert (Hfresh : existsb (λ k', py_eqb k' (synthetic_id s))
                       (production_ids configs ++ non_production_ids configs)
                     = false).
    { rewrite (existsb_perm _ _ _ (partition_ids_perm configs)).
      rewrite (distinct_keys_perm _ (synthetic_id s :: ids configs)) in D
        by (symmetry; apply Permutation_cons_append).
      by apply distinct_keys_cons in D as [? _]. }
    rewrite existsb_app in Hfresh.
    apply orb_false_iff in Hfresh as [HfP HfN].
    destruct (keys_items n configs) as [KP KN].
    rewrite <- KP, <- contains_keys, <- HP in HfP.
    rewrite <- KN, <- contains_keys, <- HN in HfN.
    unfold after_fallback.
    destruct (write_info (loop_vars n configs (Locals [] [] None)))
      as [w|] eqn:Hw.
    + assert (marked configs = true) as ->.
      { destruct (marked configs) eqn:Hm; [done|].
        assert (write_info (loop_vars n configs (Locals [] [] None)) = None)
          by (by apply loop_vars_write_none).
        congruence. }
      intros [= <-]. cbn [production non_production write_info].
      by rewrite setitem_fresh, HP, HN.
    + apply loop_vars_write_none in Hw as [_ ->].
      destruct t.
      * unfold synthetic_id. rewrite move_to_end_first_setitem_str.
        simpl. intros [= <-]. cbn [production non_production write_info].
        fold (synthetic_id s). by rewrite without_fresh, HP, HN.
      * apply move_to_end_first_none in HfN. by rewrite HfN.
  - intros [= <-]. rewrite HP, HN, app_nil_r.
    split; [done|]. split; [by destruct (marked configs)|].
    by destruct (write_info _).
Qed.

(** What a successful construction holds in its manager. *)
Lemma provide_fresh_ok importable root_profile settings injector t st configs r st' :
  kind root_profile = kind_of t →
  _inst st !! MANAGER_TYPES t = None →
  settings !! "ledger.ledger_config_list" = Some (ConfigList configs) →
  provide importable root_profile settings injector st = (Ok r, st') →
  ∃ vars',
    collected_result t root_profile settings configs (length (heap st)) = Ok vars' ∧
    deref st' r = Some (manager_of t root_profile vars').
Proof.
  intros Hk Hmiss Hlist.
  rewrite (provide_fresh _ _ _ _ t st configs) by done.
  rewrite <- (collected_length t root_profile settings injector configs st).
  destruct (collected_result _ _ _ _ _) as [vars'|]; [|done].
  destruct (decide _); [|done]. intros [= <- <-].
  exists vars'. split; [done|]. apply deref_constructed.
Qed.

(** X9: when the ids of the entries are distinct as dictionary keys, and
    distinct from the synthetic id, a construction that succeeds puts in
    each partition exactly the entries meant for it, in the order of the
    list, each id with the ledger built for its entry.  The startup ledger
    comes after them in the production partition when an entry is marked
    as the write ledger, and before them when none is. *)
Theorem partition_contents
    importable root_profile settings injector t st configs r st' :
  kind root_profile = kind_of t →
  _inst st !! MANAGER_TYPES t = None →
  settings !! "ledger.ledger_config_list" = Some (ConfigList configs) →
  distinct_keys (ids configs ++ injected_ids root_profile settings) = true →
  provide importable root_profile settings injector st = (Ok r, st') →
  ∃ args,
    deref st' r = Some (ObjManager (MANAGER_TYPES t) args) ∧
    non_production_ledgers args = items false (length (heap st)) configs ∧
    production_ledgers args
    = if marked configs
      then items true (length (heap st)) configs ++
           injected_items root_profile settings
      else injected_items root_profile settings ++
           items true (length (heap st)) configs.
Proof.
  intros Hk Hmiss Hlist D Hrun.
  destruct (provide_fresh_ok _ _ _ _ _ _ _ _ _ Hk Hmiss Hlist Hrun)
    as (vars' & Hc & Hr).
  destruct (collected_contents _ _ _ _ _ _ D Hc) as (HN & HP & _).
  eexists. split; [exact Hr|]. by cbn [production_ledgers non_production_ledgers].
Qed.

Lemma partition_contents_witness :
  ∃ args,
    deref Scenario.after_two_entries (Loc 4)
    = Some (ObjManager basic_manager_path args) ∧
    non_production_ledgers args = [(PStr "L2", Loc 3)] ∧
    production_ledgers args
    = [(PStr "L1", Loc 1); (PStr "startup::main", Ext 7)].
Proof.
  apply (partition_contents Scenario.all_importable Scenario.sdk_root
           (Scenario.with_genesis [Scenario.L1; Scenario.entry "L2" false true])
           Scenario.no_cache basic Scenario.empty_state
           [Scenario.L1; Scenario.entry "L2" false true]);
    reflexivity.
Defined.

Lemma items_elem n pre config post :
  (get config "id", Loc (S (n + 2 * length pre)))
  ∈ items (truthy (get config "is_production")) n (pre ++ config :: post).
Proof.
  rewrite items_app. cbn [items]. rewrite Bool.eqb_reflx.
  apply elem_of_app. right. apply elem_of_cons. by left.
Qed.

(** X10: when the ids are distinct as dictionary keys, and distinct from
    the synthetic id, the write designation of a manager is one of the
    items of its partitions: the id is a key of the production or of the
    non-production partition and the instance is the one stored there. *)
Theorem write_designation_is_an_item
    importable root_profile settings injector t st configs r st' :
  kind root_profile = kind_of t →
  _inst st !! MANAGER_TYPES t = None →
  settings !! "ledger.ledger_config_list" = Some (ConfigList configs) →
  distinct_keys (ids configs ++ injected_ids root_profile settings) = true →
  provide importable root_profile settings injector st = (Ok r, st') →
  ∃ args,
    deref st' r = Some (ObjManager (MANAGER_TYPES t) args) ∧
    ∀ w, write_ledger_info args = Some w →
         w ∈ production_ledgers args ∨ w ∈ non_production_ledgers args.
Proof.
  intros Hk Hmiss Hlist D Hrun.
  destruct (provide_fresh_ok _ _ _ _ _ _ _ _ _ Hk Hmiss Hlist Hrun)
    as (vars' & Hc & Hr).
  destruct (collected_contents _ _ _ _ _ _ D Hc) as (HN & HP & HW).
  eexists. split; [exact Hr|].
  cbn [production_ledgers non_production_ledgers write_ledger_info].
  intros w Hw. rewrite HW in Hw. rewrite HP, HN.
  destruct (write_info (loop_vars _ configs _)) as [w0|] eqn:Hloop.
  - injection Hw as ->.
    assert (marked configs = true) as ->.
    { destruct (marked configs) eqn:Hm; [done|].
      assert (write_info (loop_vars (length (heap st)) configs
                            (Locals [] [] None)) = None)
        by (by apply loop_vars_write_none).
      congruence. }
    apply loop_vars_write_some in Hloop as (pre & config & post & -> & ->).
    pose proof (items_elem (length (heap st)) pre config post) as Hin.
    destruct (truthy (get config "is_production")).
    + left. apply elem_of_app. by left.
    + by right.
  - left. destruct (injected_items root_profile settings) as [|w1 rest];
      [done|]. injection Hw as ->.
    destruct (marked configs); apply elem_of_app.
    + right. apply elem_of_cons. by left.
    + left. apply elem_of_cons. by left.
Qed.

Lemma write_designation_is_an_item_witness :
  ∃ args,
    deref Scenario.after_two_entries (Loc 4)
    = Some (ObjManager basic_manager_path args) ∧
    ∀ w, write_ledger_info args = Some w →
         w ∈ production_ledgers args ∨ w ∈ non_production_ledgers args.
Proof.
  apply (write_designation_is_an_item Scenario.all_importable Scenario.sdk_root
           (Scenario.with_genesis [Scenario.L1; Scenario.entry "L2" false true])
           Scenario.no_cache basic Scenario.empty_state
           [Scenario.L1; Scenario.entry "L2" false true]);
    reflexivity.
Defined.

(** X11: a manager is constructed without a write designation exactly when
    no entry is marked as the write ledger and the genesis flag is unset. *)
Theorem no_write_designation_iff
    importable root_profile settings injector t st configs r st' :
  kind root_profile = kind_of t →
  _inst st !! MANAGER_TYPES t = None →
  settings !! "ledger.ledger_config_list" = Some (ConfigList configs) →
  provide importable root_profile settings injector st = (Ok r, st') →
  ∃ args,
    deref st' r = Some (ObjManager (MANAGER_TYPES t) args) ∧
    (write_ledger_info args = None ↔
     marked configs = false ∧
     setting_truthy (settings !! "ledger.genesis_transactions") = false).
Proof.
  intros Hk Hmiss Hlist Hrun.
  destruct (provide_fresh_ok _ _ _ _ _ _ _ _ _ Hk Hmiss Hlist Hrun)
    as (vars' & Hc & Hr).
  eexists. split; [exact Hr|]. cbn [write_ledger_info].
  unfold collected_result, fallback_result, after_fallback in Hc.
  destruct (setting_truthy _).
  - destruct (bound_ledger root_profile) as [l|]; [|done].
    destruct (pool_name l) as [| | |s]; try done.
    assert (write_info vars' ≠ None); [|intuition congruence].
    destruct (write_info (loop_vars _ _ _)); [by injection Hc as <-|].
    destruct t; simpl in Hc; destruct (move_to_end_first _ _);
      simpl in Hc; try done; by injection Hc as <-.
  - injection Hc as <-. rewrite loop_vars_write_none. intuition.
Qed.

Lemma no_write_designation_iff_witness :
  ∃ args,
    deref (provide Scenario.all_importable Scenario.askar_root
             (Scenario.without_genesis [Scenario.L1]) Scenario.no_cache
             Scenario.empty_state).2 (Loc 2)
    = Some (ObjManager askar_manager_path args) ∧
    (write_ledger_info args = None ↔
     marked [Scenario.L1] = false ∧
     setting_truthy (Scenario.without_genesis [Scenario.L1]
                       !! "ledger.genesis_transactions") = false).
Proof.
  apply (no_write_designation_iff Scenario.all_importable Scenario.askar_root
           (Scenario.without_genesis [Scenario.L1]) Scenario.no_cache
           askar_profile Scenario.empty_state [Scenario.L1]);
    reflexivity.
Defined.

(** ** Keys are never repeated *)

Section Distinct.
Context {V : Type}.
Implicit Types (d : odict V) (k : pyval) (v : V).

Lemma distinct_setitem k v d :
  distinct_keys (keys d) = true → distinct_keys (keys (setitem k v d)) = true.
Proof.
  intros D. rewrite keys_setitem. destruct (contains k d) eqn:Hc; [done|].
  rewrite (distinct_keys_perm _ (k :: keys d))
    by (symmetry; apply Permutation_cons_append).
  apply distinct_keys_cons. by rewrite <- contains_keys.
Qed.

Lemma existsb_without (f : pyval → bool) k d :
  existsb f (keys (without k d)) = true → existsb f (keys d) = true.
Proof.
  induction d as [|[k' v'] d IH]; simpl; [done|].
  destruct (py_eqb k' k); simpl.
  - intros H. rewrite IH by done. apply orb_true_r.
  - destruct (f k'); [done|]. apply IH.
Qed.

Lemma distinct_without k d :
  distinct_keys (keys d) = true → distinct_keys (keys (without k d)) = true.
Proof.
  induction d as [|[k' v'] d IH]; simpl; [done|].
  intros [Hk D]%andb_true_iff. apply negb_true_iff in Hk.
  destruct (py_eqb k' k); simpl; [by apply IH|].
  rewrite IH by done. rewrite andb_true_r. apply negb_true_iff.
  destruct (existsb _ (keys (without k d))) eqn:He; [|done].
  apply existsb_without in He. congruence.
Qed.

Lemma getitem_key k d k' v : getitem k d = Some (k', v) → py_eqb k' k = true.
Proof.
  induction d as [|[k0 v0] d IH]; simpl; [done|].
  destruct (py_eqb k0 k) eqn:E; [|done]. by intros [= <- <-].
Qed.

Lemma without_gone k k' d :
  py_eqb k' k = true →
  existsb (λ x, py_eqb x k') (keys (without k d)) = false.
Proof.
  intros Hk. induction d as [|[k0 v0] d IH]; simpl; [done|].
  destruct (py_eqb k0 k) eqn:E; simpl; [done|].
  rewrite IH, orb_false_r.
  destruct (py_eqb k0 k') eqn:E'; [|done].
  by rewrite (py_eqb_trans _ _ _ E' Hk) in E.
Qed.

Lemma distinct_move_to_end_first k d moved :
  distinct_keys (keys d) = true →
  move_to_end_first k d = Some moved →
  distinct_keys (keys moved) = true.
Proof.
  intros D. unfold move_to_end_first.
  destruct (getitem k d) as [[k' v]|] eqn:Hg; [|done]. intros [= <-].
  change (keys ((k', v) :: without k d)) with (k' :: keys (without k d)).
  apply distinct_keys_cons. split; [|by apply distinct_without].
  apply without_gone. by apply getitem_key in Hg.
Qed.
End Distinct.

Lemma distinct_loop_vars n configs vars :
  distinct_keys (keys (production vars)) = true →
  distinct_keys (keys (non_production vars)) = true →
  distinct_keys (keys (production (loop_vars n configs vars))) = true ∧
  distinct_keys (keys (non_production (loop_vars n configs vars))) = true.
Proof.
  revert n vars. induction configs as [|c rest IH]; intros n vars DP DN;
    [done|].
  cbn [loop_vars]. apply IH; unfold entry_vars;
    destruct (truthy (get c "is_production")); cbn [production non_production];
    auto using distinct_setitem.
Qed.

(** X12: whatever the entries, with repeated ids or not, no key occurs
    twice in a partition of a constructed manager. *)
Theorem partitions_never_repeat_a_key
    importable root_profile settings injector t st configs r st' :
  kind root_profile = kind_of t →
  _inst st !! MANAGER_TYPES t = None →
  settings !! "ledger.ledger_config_list" = Some (ConfigList configs) →
  provide importable root_profile settings injector st = (Ok r, st') →
  ∃ args,
    deref st' r = Some (ObjManager (MANAGER_TYPES t) args) ∧
    distinct_keys (keys (production_ledgers args)) = true ∧
    distinct_keys (keys (non_production_ledgers args)) = true.
Proof.
  intros Hk Hmiss Hlist Hrun.
  destruct (provide_fresh_ok _ _ _ _ _ _ _ _ _ Hk Hmiss Hlist Hrun)
    as (vars' & Hc & Hr).
  eexists. split; [exact Hr|].
  cbn [production_ledgers non_production_ledgers].
  destruct (distinct_loop_vars (length (heap st)) configs (Locals [] [] None))
    as [DP DN]; [done..|].
  unfold collected_result, fallback_result, after_fallback in Hc.
  destruct (setting_truthy _); [|by injection Hc as <-].
  destruct (bound_ledger root_profile) as [l|]; [|done].
  destruct (pool_name l) as [| | |s]; try done.
  destruct (write_info (loop_vars _ _ _)).
  - injection Hc as <-. cbn [production non_production].
    auto using distinct_setitem.
  - destruct t; simpl in Hc;
      destruct (move_to_end_first _ _) as [moved|] eqn:Hm; simpl in Hc;
      try done; injection Hc as <-; cbn [production non_production].
    + split; [|done].
      eapply distinct_move_to_end_first; [|exact Hm].
      by apply distinct_setitem.
    + split; [by apply distinct_setitem|].
      by eapply distinct_move_to_end_first.
Qed.

Lemma partitions_never_repeat_a_key_witness :
  ∃ args,
    deref Scenario.after_twice (Loc 6)
    = Some (ObjManager basic_manager_path args) ∧
    distinct_keys (keys (production_ledgers args)) = true ∧
    distinct_keys (keys (non_production_ledgers args)) = true.
Proof.
  apply (partitions_never_repeat_a_key Scenario.all_importable Scenario.sdk_root
           (Scenario.with_genesis Scenario.twice) Scenario.no_cache basic
           Scenario.empty_state Scenario.twice);
    [reflexivity..|vm_compute; reflexivity].
Defined.

(** ** The order of the keys, for any list *)

Lemma firsts_ext s1 s2 l :
  (∀ y, existsb (λ k', py_eqb k' y) s1 = existsb (λ k', py_eqb k' y) s2) →
  firsts s1 l = firsts s2 l.
Proof.
  revert s1 s2. induction l as [|k l IH]; intros s1 s2 H; [done|].
  simpl. rewrite <- H. destruct (existsb _ s1); [by apply IH|].
  f_equal. apply IH. intros y. simpl. by rewrite H.
Qed.

Lemma firsts_perm s1 s2 l : s1 ≡ₚ s2 → firsts s1 l = firsts s2 l.
Proof. intros Hp. apply firsts_ext. intros y. by apply existsb_perm. Qed.

Lemma firsts_app seen l1 l2 :
  firsts seen (l1 ++ l2)
  = firsts seen l1 ++ firsts (seen ++ firsts seen l1) l2.
Proof.
  revert seen. induction l1 as [|k l1 IH]; intros seen; simpl.
  - by rewrite app_nil_r.
  - destruct (existsb _ seen); [apply IH|].
    rewrite IH. simpl. do 2 f_equal.
    apply firsts_perm. by rewrite Permutation_middle.
Qed.

(** Leaving out the keys equal to [k] is seeing [k] first. *)
Lemma filter_firsts k seen l :
  List.filter (λ x, negb (py_eqb x k)) (firsts seen l) = firsts (k :: seen) l.
Proof.
  revert seen. induction l as [|x l IH]; intros seen; [done|].
  cbn [firsts existsb]. destruct (existsb _ seen) eqn:Hs.
  - rewrite orb_true_r. apply IH.
  - rewrite orb_false_r. cbn [List.filter]. rewrite IH.
    rewrite (py_eqb_sym k x). destruct (py_eqb x k) eqn:Hx; cbn [negb].
    + apply firsts_ext. intros y. simpl.
      rewrite (py_eqb_congr _ _ _ Hx). by destruct (py_eqb k y).
    + f_equal. apply firsts_perm. apply perm_swap.
Qed.

Lemma keys_without {V} k (d : odict V) :
  keys (without k d) = List.filter (λ x, negb (py_eqb x k)) (keys d).
Proof.
  induction d as [|[k' v'] d IH]; simpl; [done|].
  destruct (py_eqb k' k); simpl; by rewrite IH.
Qed.

Lemma keys_setitem_firsts {V} k (v : V) d :
  keys (setitem k v d) = keys d ++ firsts (keys d) [k].
Proof.
  rewrite keys_setitem, contains_keys. simpl.
  destruct (existsb _ (keys d)); [by rewrite app_nil_r|done].
Qed.

Lemma keys_move_str {V} s (d moved : odict V) :
  move_to_end_first (PStr s) d = Some moved →
  keys moved = PStr s :: keys (without (PStr s) d).
Proof.
  unfold move_to_end_first.
  destruct (getitem (PStr s) d) as [[k' v]|] eqn:Hg; [|done]. intros [= <-].
  apply getitem_key, py_eqb_str in Hg. by subst.
Qed.

(** The keys of the partitions after the loop. *)
Lemma loop_vars_firsts n configs vars :
  keys (production (loop_vars n configs vars))
  = keys (production vars) ++
    firsts (keys (production vars)) (production_ids configs) ∧
  keys (non_production (loop_vars n configs vars))
  = keys (non_production vars) ++
    firsts (keys (non_production vars)) (non_production_ids configs).
Proof.
  unfold production_ids, non_production_ids.
  revert n vars. induction configs as [|c rest IH]; intros n vars.
  - simpl. by rewrite !app_nil_r.
  - cbn [loop_vars]. destruct (IH (S (S n)) (entry_vars n vars c)) as [H1 H2].
    rewrite H1, H2. unfold entry_vars.
    destruct (truthy (get c "is_production")) eqn:Hprod;
      cbn [production non_production].
    + rewrite filter_cons_True, filter_cons_False by (by rewrite ?Hprod).
      split; [|done].
      change (ids (c :: ?l)) with ([get c "id"] ++ ids l).
      by rewrite keys_setitem_firsts, firsts_app, app_assoc.
    + rewrite filter_cons_False, filter_cons_True by (by rewrite ?Hprod).
      split; [done|].
      change (ids (c :: ?l)) with ([get c "id"] ++ ids l).
      by rewrite keys_setitem_firsts, firsts_app, app_assoc.
Qed.

(** X13: for every list of entries, repeated ids included, the keys of
    each partition of a constructed manager are the ids that reached it, in
    order, each at its first occurrence.  The ids of the entries come in
    list order; the synthetic id comes after those of the production
    entries, except that with no entry marked as the write ledger it comes
    first, in the production partition in the "basic" branch and in the
    non-production partition in the "askar-profile" branch. *)
Theorem partition_order_any_list
    importable root_profile settings injector t st configs r st' :
  kind root_profile = kind_of t →
  _inst st !! MANAGER_TYPES t = None →
  settings !! "ledger.ledger_config_list" = Some (ConfigList configs) →
  provide importable root_profile settings injector st = (Ok r, st') →
  ∃ args,
    deref st' r = Some (ObjManager (MANAGER_TYPES t) args) ∧
    keys (production_ledgers args)
    = firsts [] (production_order t root_profile settings configs) ∧
    keys (non_production_ledgers args)
    = firsts [] (non_production_order t root_profile settings configs).
Proof.
  intros Hk Hmiss Hlist Hrun.
  destruct (provide_fresh_ok _ _ _ _ _ _ _ _ _ Hk Hmiss Hlist Hrun)
    as (vars' & Hc & Hr).
  eexists. split; [exact Hr|].
  cbn [production_ledgers non_production_ledgers].
  destruct (loop_vars_firsts (length (heap st)) configs (Locals [] [] None))
    as [KP KN].
  simpl in KP, KN.
  unfold production_order, non_production_order, injected_ids.
  unfold collected_result, fallback_result, after_fallback in Hc.
  destruct (setting_truthy _).
  - destruct (bound_ledger root_profile) as [l|]; [|done].
    destruct (pool_name l) as [| | |s]; try done.
    destruct (write_info (loop_vars _ _ _)) as [w|] eqn:Hw.
    + assert (marked configs = true) as ->.
      { destruct (marked configs) eqn:Hm; [done|].
        assert (write_info (loop_vars (length (heap st)) configs
                              (Locals [] [] None)) = None)
          by (by apply loop_vars_write_none).
        congruence. }
      injection Hc as <-. cbn [production non_production].
      rewrite keys_setitem_firsts, KP, KN.
      destruct t; cbv iota; by rewrite firsts_app.
    + apply loop_vars_write_none in Hw as [_ ->].
      destruct t; simpl in Hc;
        destruct (move_to_end_first _ _) as [moved|] eqn:Hm; simpl in Hc;
        try done; injection Hc as <-; cbn [production non_production];
        cbv iota.
      * apply keys_move_str in Hm.
        rewrite Hm, without_setitem, keys_without, KP, KN, filter_firsts.
        done.
      * apply keys_move_str in Hm.
        rewrite Hm, keys_setitem_firsts, keys_without, KP, KN, filter_firsts,
          firsts_app.
        done.
  - injection Hc as <-. rewrite KP, KN.
    destruct t, (marked configs); cbv iota; by rewrite ?app_nil_r.
Qed.

Lemma partition_order_any_list_witness :
  ∃ args,
    deref Scenario.after_twice (Loc 6)
    = Some (ObjManager basic_manager_path args) ∧
    keys (production_ledgers args) = [PStr "L1"; PStr "startup::main"] ∧
    keys (non_production_ledgers args) = [PStr "L2"].
Proof.
  apply (partition_order_any_list Scenario.all_importable Scenario.sdk_root
           (Scenario.with_genesis Scenario.twice) Scenario.no_cache basic
           Scenario.empty_state Scenario.twice);
    [reflexivity..|vm_compute; reflexivity].
Defined.

(** ** Repeated ids *)

Section Lookup.
Context {V : Type}.
Implicit Types (d : odict V) (k : pyval) (v : V).

Lemma getitem_setitem_same k v d :
  ∃ k', getitem k (setitem k v d) = Some (k', v).
Proof.
  induction d as [|[k0 v0] d IH]; simpl.
  - rewrite py_eqb_refl. eauto.
  - destruct (py_eqb k0 k) eqn:E; simpl; rewrite E; eauto.
Qed.

Lemma getitem_setitem_other k0 k v d :
  py_eqb k0 k = false → getitem k (setitem k0 v d) = getitem k d.
Proof.
  intros Hk. induction d as [|[k1 v1] d IH]; simpl.
  - by rewrite Hk.
  - destruct (py_eqb k1 k0) eqn:E; simpl.
    + by rewrite (py_eqb_congr _ _ k E), Hk.
    + by rewrite IH.
Qed.

Lemma getitem_without_other k0 k d :
  py_eqb k0 k = false → getitem k (without k0 d) = getitem k d.
Proof.
  intros Hk. induction d as [|[k1 v1] d IH]; simpl; [done|].
  destruct (py_eqb k1 k0) eqn:E; simpl.
  + by rewrite (py_eqb_congr _ _ k E), Hk.
  + by rewrite IH.
Qed.

Lemma getitem_move_other k0 k d moved :
  move_to_end_first k0 d = Some moved →
  py_eqb k0 k = false →
  getitem k moved = getitem k d.
Proof.
  unfold move_to_end_first.
  destruct (getitem k0 d) as [[k' v]|] eqn:Hg; [|done]. intros [= <-] Hk.
  apply getitem_key in Hg. simpl.
  rewrite (py_eqb_congr _ _ k Hg), Hk. by apply getitem_without_other.
Qed.
End Lookup.

Lemma part_entry_vars b n vars config :
  part b (entry_vars n vars config)
  = if Bool.eqb (truthy (get config "is_production")) b
    then setitem (get config "id") (Loc (S n)) (part b vars)
    else part b vars.
Proof.
  unfold entry_vars, part.
  by destruct (truthy (get config "is_production")), b.
Qed.

(** Entries of the same partition with another id leave the item alone. *)
Lemma loop_getitem_later b k n post vars :
  Forall (λ later, truthy (get later "is_production") = b →
                   py_eqb (get later "id") k = false) post →
  getitem k (part b (loop_vars n post vars)) = getitem k (part b vars).
Proof.
  intros H. revert n vars.
  induction H as [|c rest Hc _ IH]; intros n vars; [done|].
  cbn [loop_vars]. rewrite IH, part_entry_vars.
  destruct (Bool.eqb _ b) eqn:E; [|done].
  apply Bool.eqb_prop in E. by rewrite getitem_setitem_other by auto.
Qed.

Lemma after_fallback_getitem t ledger_id ledger_instance vars vars' b k :
  after_fallback t ledger_id ledger_instance vars = Some vars' →
  py_eqb ledger_id k = false →
  getitem k (part b vars') = getitem k (part b vars).
Proof.
  unfold after_fallback. intros Hf Hk.
  destruct (write_info vars).
  - injection Hf as <-. destruct b; cbn [part production non_production];
      [by apply getitem_setitem_other|done].
  - destruct t; simpl in Hf;
      destruct (move_to_end_first _ _) as [moved|] eqn:Hm; simpl in Hf;
      try done; injection Hf as <-;
      destruct b; cbn [part production non_production]; try done.
    + rewrite (getitem_move_other _ _ _ _ Hm) by done.
      by apply getitem_setitem_other.
    + by apply getitem_setitem_other.
    + by apply (getitem_move_other _ _ _ _ Hm).
Qed.

(** X14: when several entries of a partition have the same id, looking
    that id up in the partition gives the ledger built for the last of
    them: for an entry followed by no entry of its partition with an equal
    id, and whose id is not the synthetic one, the partition maps the id to
    the ledger instance of that entry. *)
Theorem lookup_gives_last_instance
    importable root_profile settings injector t st pre config post r st' :
  kind root_profile = kind_of t →
  _inst st !! MANAGER_TYPES t = None →
  settings !! "ledger.ledger_config_list"
  = Some (ConfigList (pre ++ config :: post)) →
  Forall (λ later,
            truthy (get later "is_production")
            = truthy (get config "is_production") →
            py_eqb (get later "id") (get config "id") = false) post →
  Forall (λ k, py_eqb k (get config "id") = false)
    (injected_ids root_profile settings) →
  provide importable root_profile settings injector st = (Ok r, st') →
  ∃ args k',
    deref st' r = Some (ObjManager (MANAGER_TYPES t) args) ∧
    getitem (get config "id")
      (partition_of (truthy (get config "is_production")) args)
    = Some (k', Loc (S (length (heap st) + 2 * length pre))).
Proof.
  intros Hk Hmiss Hlist Hpost Hinj Hrun.
  destruct (provide_fresh_ok _ _ _ _ _ _ _ _ _ Hk Hmiss Hlist Hrun)
    as (vars' & Hc & Hr).
  set (b := truthy (get config "is_production")) in *.
  set (vars := loop_vars (length (heap st)) (pre ++ config :: post)
                 (Locals [] [] None)) in *.
  assert (Hloop : ∃ k', getitem (get config "id") (part b vars)
                        = Some (k', Loc (S (length (heap st) + 2 * length pre)))).
  { unfold vars. rewrite loop_vars_app. cbn [loop_vars].
    rewrite loop_getitem_later by done.
    rewrite part_entry_vars. fold b. rewrite Bool.eqb_reflx.
    apply getitem_setitem_same. }
  destruct Hloop as [k' Hloop].
  eexists _, k'. split; [exact Hr|].
  assert (Hpart : ∀ args, production_ledgers args = production vars' →
                          non_production_ledgers args = non_production vars' →
                          partition_of b args = part b vars')
    by (intros args HP HN; unfold partition_of, part; by rewrite HP, HN).
  rewrite Hpart by done. rewrite <- Hloop.
  unfold collected_result, fallback_result, injected_ids in *.
  destruct (setting_truthy _); [|by injection Hc as <-].
  destruct (bound_ledger root_profile) as [l|]; [|done].
  destruct (pool_name l) as [| | |s]; try done.
  destruct (after_fallback _ _ _ _) as [v|] eqn:Hf; [|done].
  injection Hc as <-. apply (after_fallback_getitem _ _ _ _ _ _ _ Hf).
  by apply Forall_cons in Hinj as [? _].
Qed.

Lemma lookup_gives_last_instance_witness :
  ∃ args k',
    deref Scenario.after_twice (Loc 6)
    = Some (ObjManager basic_manager_path args) ∧
    getitem (PStr "L1") (partition_of true args) = Some (k', Loc 5).
Proof.
  apply (lookup_gives_last_instance Scenario.all_importable Scenario.sdk_root
           (Scenario.with_genesis Scenario.twice) Scenario.no_cache basic
           Scenario.empty_state
           [Scenario.entry "L1" true false; Scenario.entry "L2" false true]
           (Scenario.entry "L1" true false) []);
    [reflexivity|reflexivity|reflexivity| | |vm_compute; reflexivity].
  - constructor.
  - repeat constructor.
Defined.

(** ** A construction holds every entry *)









(** The objects of a construction that succeeded. *)
Lemma constructed_heap t root_profile settings injector configs st vars' :
  heap (constructed t root_profile vars'
          (collected_state t root_profile settings injector configs st))
  = heap st ++
    loop_objs (pool_class_of t) (ledger_class_of t) root_profile injector
      (length (heap st)) configs ++
    [manager_of t root_profile vars'].
Proof.
  cbn [constructed store alloc log heap].
  by rewrite collected_heap, <- app_assoc.
Qed.

Lemma entry_at pc lc root_profile injector (heap0 rest : list pyobj)
    configs i config :
  configs !! i = Some config →
  let heap1 :=
    heap0 ++ loop_objs pc lc root_profile injector (length heap0) configs ++ rest in
  heap1 !! (length heap0 + 2 * i)
  = Some (ObjPool pc
            {| name := get config "pool_name";
               keepalive := get config "keepalive";
               cache := bound_cache injector;
               genesis_transactions := get config "genesis_transactions";
               read_only := get config "read_only";
               socks_proxy := get config "socks_proxy" |}) ∧
  heap1 !! S (length heap0 + 2 * i)
  = Some (ObjLedger lc (Loc (length heap0 + 2 * i)) root_profile).
Proof.
  intros Hi heap1. unfold heap1.
  pose proof (lookup_lt_Some _ _ _ Hi) as Hlt.
  assert (Hpre : length (take i configs) = i) by (rewrite length_take; lia).
  pose proof (take_drop_middle configs i config Hi) as Hsplit.
  revert Hpre Hsplit.
  generalize (take i configs) (drop (S i) configs). intros pre post <- <-.
  apply entry_in_heap.
Qed.





(** ** The heap of a construction *)

(** X8: a construction that succeeds leaves the objects already in the heap
    as they were and adds, for the entry at position [i], a pool built
    from the entry's parameters and the cache of the injector, then a
    ledger of the branch's class bound to that pool and to the root
    profile; the manager comes last: the heap ends with it, it is an
    object of the manager class of the branch holding the root profile,
    the two partitions and the write designation the branch collected,
    and it is the object at the reference [provide] returns and stores in
    [_inst].  The startup ledger is not constructed. *)
Theorem construction_heap
    importable root_profile settings injector t st configs r st' :
  kind root_profile = kind_of t →
  _inst st !! MANAGER_TYPES t = None →
  settings !! "ledger.ledger_config_list" = Some (ConfigList configs) →
  provide importable root_profile settings injector st = (Ok r, st') →
  let n := length (heap st) in
  r = Loc (n + 2 * length configs) ∧
  length (heap st') = n + 2 * length configs + 1 ∧
  (∀ j o, heap st !! j = Some o → heap st' !! j = Some o) ∧
  (∀ i config, configs !! i = Some config →
     heap st' !! (n + 2 * i) = Some (pool_of t injector config) ∧
     heap st' !! S (n + 2 * i)
     = Some (ObjLedger (ledger_class_of t) (Loc (n + 2 * i)) root_profile)) ∧
  _inst st' !! MANAGER_TYPES t = Some r ∧
  ∃ vars,
    collected_result t root_profile settings configs n = Ok vars ∧
    deref st' r
    = Some (ObjManager (MANAGER_TYPES t)
              {| profile := root_profile;
                 production_ledgers := production vars;
                 non_production_ledgers := non_production vars;
                 write_ledger_info := write_info vars |}) ∧
    last (heap st') = deref st' r ∧
    heap st'
    = heap st ++
      loop_objs (pool_class_of t) (ledger_class_of t) root_profile injector
        n configs ++
      [ObjManager (MANAGER_TYPES t)
         {| profile := root_profile;
            production_ledgers := production vars;
            non_production_ledgers := non_production vars;
            write_ledger_info := write_info vars |}].
Proof.
  intros Hk Hmiss Hlist.
  rewrite (provide_fresh _ _ _ _ t st configs) by done.
  destruct (collected_result _ _ _ _ _) as [vars'|] eqn:Hc; [|done].
  destruct (decide _); [|done].
  set (st1 := constructed t root_profile vars'
                (collected_state t root_profile settings injector configs st)).
  assert (Hr : deref st1 (Loc (length (heap st) + 2 * length configs))
               = Some (manager_of t root_profile vars')).
  { rewrite <- (collected_length t root_profile settings injector configs st).
    apply deref_constructed. }
  assert (Hinst : _inst st1 !! MANAGER_TYPES t
                  = Some (Loc (length (heap st) + 2 * length configs))).
  { unfold st1.
    rewrite inst_constructed, collected_inst, collected_length.
    apply lookup_insert_eq. }
  assert (Hheap : heap st1
                  = heap st ++
                    loop_objs (pool_class_of t) (ledger_class_of t)
                      root_profile injector (length (heap st)) configs ++
                    [manager_of t root_profile vars'])
    by apply constructed_heap.
  intros Heq n.
  assert (r = Loc (length (heap st) + 2 * length configs)) as ->
    by congruence.
  assert (st' = st1) as -> by congruence.
  unfold n. split; [done|]. split; [|split; [|split; [|split; [exact Hinst|]]]].
  - rewrite Hheap, !length_app, loop_objs_length. simpl. lia.
  - intros j o Hj. rewrite Hheap. by apply lookup_app_l_Some.
  - intros i config Hi. rewrite Hheap.
    apply (entry_at (pool_class_of t) (ledger_class_of t) root_profile
             injector (heap st) [manager_of t root_profile vars']
             configs i config Hi).
  - exists vars'. split; [exact Hc|]. split; [exact Hr|]. split; [|exact Hheap].
    rewrite Hr, Hheap, !app_assoc. apply last_snoc.
Qed.

Lemma construction_heap_witness :
  Loc 4 = Loc (0 + 2 * 2) ∧
  length (heap Scenario.after_two_entries) = 0 + 2 * 2 + 1 ∧
  (∀ j o, (@nil pyobj) !! j = Some o →
          heap Scenario.after_two_entries !! j = Some o) ∧
  (∀ i config,
     [Scenario.L1; Scenario.entry "L2" false true] !! i = Some config →
     heap Scenario.after_two_entries !! (0 + 2 * i)
     = Some (pool_of basic Scenario.no_cache config) ∧
     heap Scenario.after_two_entries !! S (0 + 2 * i)
     = Some (ObjLedger IndySdkLedger (Loc (0 + 2 * i)) Scenario.sdk_root)) ∧
  _inst Scenario.after_two_entries !! MANAGER_TYPES basic = Some (Loc 4) ∧
  ∃ vars,
    collected_result basic Scenario.sdk_root
      (Scenario.with_genesis [Scenario.L1; Scenario.entry "L2" false true])
      [Scenario.L1; Scenario.entry "L2" false true] 0 = Ok vars ∧
    deref Scenario.after_two_entries (Loc 4)
    = Some (ObjManager (MANAGER_TYPES basic)
              {| profile := Scenario.sdk_root;
                 production_ledgers := production vars;
                 non_production_ledgers := non_production vars;
                 write_ledger_info := write_info vars |}) ∧
    last (heap Scenario.after_two_entries)
    = deref Scenario.after_two_entries (Loc 4) ∧
    heap Scenario.after_two_entries
    = [] ++
      loop_objs (pool_class_of basic) (ledger_class_of basic)
        Scenario.sdk_root Scenario.no_cache 0
        [Scenario.L1; Scenario.entry "L2" false true] ++
      [ObjManager (MANAGER_TYPES basic)
         {| profile := Scenario.sdk_root;
            production_ledgers := production vars;
            non_production_ledgers := non_production vars;
            write_ledger_info := write_info vars |}].
Proof.
  apply (construction_heap Scenario.all_importable Scenario.sdk_root
           (Scenario.with_genesis [Scenario.L1; Scenario.entry "L2" false true])
           Scenario.no_cache basic Scenario.empty_state
           [Scenario.L1; Scenario.entry "L2" false true] (Loc 4));
    reflexivity.
Defined.
